(** * The donation microsite: the PayPal webhook fulfilment pipeline

    A shallow embedding of [src/server.js] and of its sibling revision
    [src/unnamed/part_000]: the function [generateThankYouMessage] and the
    handler registered with [app.post('/api/webhooks/paypal', ...)].

    The file has three layers.
    - The JavaScript values the program manipulates (what [JSON.parse] and
      [express.json()] produce) and the language operations the source applies
      to them: property reads, template literals, truthiness, [> 0],
      [String.prototype.trim], [JSON.parse], [JSON.stringify].
    - A small monad for the statements of an async function: a log of the
      observable effects (console output, the outgoing fetch, the mail handed
      to the transporter, the HTTP status sent) and a completion that is
      normal, an early [return], or a thrown error.
    - The two source files, each in a module of its own, and the theorems. *)

From Stdlib Require Import NArith ZArith List String Ascii Bool Arith Lia.
Import ListNotations.

Set Implicit Arguments.

(** ** Strings

    A JavaScript string is a sequence of UTF-16 code units. *)

Definition code_unit := N.
Definition jsstring := list code_unit.

(** String literals of the source are written as Rocq strings in which a
    backquote stands for the double quote character (code unit 34): no
    literal of the source contains a backquote, since all of them that quote
    something are template literals. All of them are ASCII; the three emoji of
    the console messages are given by their code units. *)
Definition unit_of_ascii (c : ascii) : code_unit :=
  let n := N_of_ascii c in if N.eqb n 96 then 34%N else n.

Fixpoint lit (s : string) : jsstring :=
  match s with
  | EmptyString => []
  | String c s' => unit_of_ascii c :: lit s'
  end.

Fixpoint str_eqb (a b : jsstring) : bool :=
  match a, b with
  | [], [] => true
  | x :: a', y :: b' => N.eqb x y && str_eqb a' b'
  | _, _ => false
  end.

(** WhiteSpace and LineTerminator code points of ECMAScript, the ones
    [String.prototype.trim] strips: TAB, LF, VT, FF, CR, SP, NBSP, U+1680,
    U+2000 to U+200A, U+2028, U+2029, U+202F, U+205F, U+3000 and U+FEFF. *)
Definition is_white_space (c : code_unit) : bool :=
  ((9 <=? c) && (c <=? 13) || (c =? 32) || (c =? 160) || (c =? 5760)
   || (8192 <=? c) && (c <=? 8202) || (c =? 8232) || (c =? 8233)
   || (c =? 8239) || (c =? 8287) || (c =? 12288) || (c =? 65279))%N.

Fixpoint trimStart (s : jsstring) : jsstring :=
  match s with
  | [] => []
  | c :: s' => if is_white_space c then trimStart s' else s
  end.

Definition trimEnd (s : jsstring) : jsstring := rev (trimStart (rev s)).

(** [String.prototype.trim]. *)
Definition trim (s : jsstring) : jsstring := trimEnd (trimStart s).

(** ** Numbers

    JavaScript numbers are IEEE 754 doubles. The program never computes with
    them: a number can only arrive inside a parsed JSON document, and the
    program then converts it to a string, tests its truthiness or compares it
    with zero. The embedding is therefore parametric in the representation of
    numbers and in the conversions between numbers and decimal notation. *)
Class Engine : Type := {
  number : Type;
  (** the number that is the length of a string or of an array *)
  Number_of_nat : nat -> number;
  (** StringToNumber: the value of a numeric string, NaN when it is none *)
  StringToNumber : jsstring -> number;
  (** Number::toString in radix 10 *)
  Number_toString : number -> jsstring;
  (** ToBoolean on numbers: false on +0, -0 and NaN *)
  Number_toBoolean : number -> bool;
  (** false on NaN and the infinities *)
  Number_isFinite : number -> bool;
  (** the comparison [x > 0] *)
  Number_gt_zero : number -> bool;
  Number_of_nat_gt_zero :
    forall n, Number_gt_zero (Number_of_nat n) = negb (Nat.eqb n 0)
}.

(** ** Thrown values and outcomes *)

(** What can be thrown: the two native errors the language raises on the
    values below, an [Error] created by the program with [new Error(msg)], and
    the reason with which an external promise (fetch, body decoding, mail
    transport) rejects. *)
Inductive exn : Type :=
| TypeError
| SyntaxError
| Error (msg : jsstring)
| Rejection (reason : jsstring).

(** The outcome of evaluating an expression: a value, or a thrown error. *)
Inductive outcome (A : Type) : Type :=
| Ok (a : A)
| Raise (e : exn).

Arguments Ok {A} a.
Arguments Raise {A} e.

Definition obind {A B} (c : outcome A) (k : A -> outcome B) : outcome B :=
  match c with
  | Ok a => k a
  | Raise e => Raise e
  end.

Declare Scope js_scope.
Delimit Scope js_scope with js.
Open Scope js_scope.
Notation "'let!' x ':=' c 'in' k" := (obind c (fun x => k))
  (at level 10, x name, c at level 100, k at level 200, only parsing)
  : js_scope.

(** ** Values *)

Section Values.
Context {E : Engine}.

(** The values that reach the program: the results of [JSON.parse], and
    [undefined] for what is absent. Objects are plain objects (prototype
    [Object.prototype]) and list their own properties in creation order. *)
#[warnings="-register-all"]
Inductive jsval : Type :=
| Undefined
| Null
| Bool (b : bool)
| Num (n : number)
| Str (s : jsstring)
| Arr (items : list jsval)
| Obj (props : list (jsstring * jsval)).

Definition is_nullish (v : jsval) : bool :=
  match v with
  | Undefined | Null => true
  | _ => false
  end.

Fixpoint own_property (props : list (jsstring * jsval)) (key : jsstring)
  : option jsval :=
  match props with
  | [] => None
  | (k, v) :: rest => if str_eqb k key then Some v else own_property rest key
  end.

Definition has_own_property (props : list (jsstring * jsval)) (key : jsstring)
  : bool :=
  match own_property props key with
  | Some _ => true
  | None => false
  end.

(** *** Array indices

    A property name is an array index when it is the canonical decimal
    notation of an integer below 2^32 - 1: digits only, no leading zero. *)
Definition is_digit (c : code_unit) : bool := ((48 <=? c) && (c <=? 57))%N.

Fixpoint digits_value (acc : N) (s : jsstring) : option N :=
  match s with
  | [] => Some acc
  | c :: s' =>
      if is_digit c then digits_value (10 * acc + (c - 48))%N s' else None
  end.

Definition array_index (key : jsstring) : option N :=
  let bounded (r : option N) :=
    match r with
    | Some i => if (i <? 4294967295)%N then Some i else None
    | None => None
    end in
  match key with
  | [] => None
  | [c] => bounded (digits_value 0 key)
  | c :: _ => if N.eqb c 48 then None else bounded (digits_value 0 key)
  end.

Definition nth_item {A} (l : list A) (i : N) : option A :=
  if (i <? N.of_nat (List.length l))%N then nth_error l (N.to_nat i) else None.

(** *** ToBoolean *)
Definition ToBoolean (v : jsval) : bool :=
  match v with
  | Undefined | Null => false
  | Bool b => b
  | Num n => Number_toBoolean n
  | Str s => match s with [] => false | _ => true end
  | Arr _ | Obj _ => true
  end.

(** *** ToString

    What a template literal applies to each substitution. On a plain object
    the conversion goes through OrdinaryToPrimitive: the inherited
    [Object.prototype.toString] answers [[object Object]], unless the object
    has an own property named [toString]. A parsed value is never callable, so
    such a property hides the inherited method, the inherited [valueOf]
    returns the object itself, and the conversion throws a TypeError. On an
    array the inherited [Array.prototype.toString] joins the elements with
    commas, [undefined] and [null] elements giving the empty string. *)
Fixpoint ToString (v : jsval) : outcome jsstring :=
  match v with
  | Undefined => Ok (lit "undefined")
  | Null => Ok (lit "null")
  | Bool true => Ok (lit "true")
  | Bool false => Ok (lit "false")
  | Num n => Ok (Number_toString n)
  | Str s => Ok s
  | Arr items =>
      (fix join (l : list jsval) : outcome jsstring :=
         match l with
         | [] => Ok []
         | x :: rest =>
             let! s := (if is_nullish x then Ok [] else ToString x) in
             match rest with
             | [] => Ok s
             | _ :: _ => let! r := join rest in Ok (s ++ lit "," ++ r)
             end
         end) items
  | Obj props =>
      if has_own_property props (lit "toString") then Raise TypeError
      else Ok (lit "[object Object]")
  end.

(** *** Property reads

    [Get v key] is the member expression [v.key] (or [v[0]] for the key
    [0]), for the property names this program reads: [event_type],
    [resource], [amount], [value], [purchase_units], [0], [custom_id], [id],
    [name], [email], [message], [candidates], [length], [content], [parts] and
    [text]. None of them is defined on a built-in prototype, so the read gives
    the own property or [undefined]; [length] is an own property of strings
    and arrays. Reading a property of [undefined] or [null] throws. *)
Definition Get (v : jsval) (key : jsstring) : outcome jsval :=
  match v with
  | Undefined | Null => Raise TypeError
  | Bool _ | Num _ => Ok Undefined
  | Str s =>
      if str_eqb key (lit "length") then Ok (Num (Number_of_nat (List.length s)))
      else match array_index key with
           | Some i => match nth_item s i with
                       | Some c => Ok (Str [c])
                       | None => Ok Undefined
                       end
           | None => Ok Undefined
           end
  | Arr items =>
      if str_eqb key (lit "length") then Ok (Num (Number_of_nat (List.length items)))
      else match array_index key with
           | Some i => match nth_item items i with
                       | Some x => Ok x
                       | None => Ok Undefined
                       end
           | None => Ok Undefined
           end
  | Obj props =>
      match own_property props key with
      | Some x => Ok x
      | None => Ok Undefined
      end
  end.

(** The method call [v.trim()]. Only a string inherits a callable [trim]; on
    every other value the property is [undefined] or, for an own property of
    a parsed object, a value that is not callable. *)
Definition call_trim (v : jsval) : outcome jsval :=
  match v with
  | Str s => Ok (Str (trim s))
  | _ => Raise TypeError
  end.

(** The comparison [v === 'literal'] against a string literal. *)
Definition strict_equals_string (v : jsval) (s : jsstring) : bool :=
  match v with
  | Str s' => str_eqb s' s
  | _ => false
  end.

(** The comparison [v > 0]: ToPrimitive with hint number (on objects and
    arrays it ends in the same string, or the same TypeError, as [ToString]),
    then ToNumber and the comparison of numbers. [undefined] is NaN, [null]
    and [false] are 0, [true] is 1. *)
Definition greater_than_zero (v : jsval) : outcome bool :=
  match v with
  | Undefined | Null => Ok false
  | Bool b => Ok b
  | Num n => Ok (Number_gt_zero n)
  | Str s => Ok (Number_gt_zero (StringToNumber s))
  | Arr _ | Obj _ =>
      let! s := ToString v in Ok (Number_gt_zero (StringToNumber s))
  end.

(** *** JSON.stringify

    QuoteJSONString: the two-character escapes, [\u00xx] for the other control
    characters and for a surrogate that is not part of a pair, every other
    code unit as it is. *)
Definition hex_digit (n : N) : code_unit :=
  (if n <? 10 then 48 + n else 87 + n)%N.

Definition unicode_escape (c : code_unit) : jsstring :=
  lit "\u" ++ [hex_digit (c / 4096); hex_digit ((c / 256) mod 16);
               hex_digit ((c / 16) mod 16); hex_digit (c mod 16)].

Definition is_high_surrogate (c : code_unit) : bool :=
  ((55296 <=? c) && (c <=? 56319))%N.
Definition is_low_surrogate (c : code_unit) : bool :=
  ((56320 <=? c) && (c <=? 57343))%N.

Definition quote_unit (c : code_unit) : jsstring :=
  (if c =? 8 then lit "\b" else if c =? 9 then lit "\t"
   else if c =? 10 then lit "\n" else if c =? 12 then lit "\f"
   else if c =? 13 then lit "\r" else if c =? 34 then lit "\`"
   else if c =? 92 then lit "\\"
   else if c <? 32 then unicode_escape c
   else if is_high_surrogate c || is_low_surrogate c then unicode_escape c
   else [c])%N.

Fixpoint quote_units (s : jsstring) : jsstring :=
  match s with
  | [] => []
  | c :: s' =>
      match s' with
      | d :: s'' =>
          if is_high_surrogate c && is_low_surrogate d
          then c :: d :: quote_units s''
          else quote_unit c ++ quote_units s'
      | [] => quote_unit c
      end
  end.

Definition QuoteJSONString (s : jsstring) : jsstring :=
  lit "`" ++ quote_units s ++ lit "`".

Fixpoint join_with (sep : jsstring) (l : list jsstring) : jsstring :=
  match l with
  | [] => []
  | [x] => x
  | x :: rest => x ++ sep ++ join_with sep rest
  end.

(** The order in which the own properties of an object are enumerated: the
    array indices first, in ascending order, then the other names in creation
    order. *)
Fixpoint insert_by_index {A} (i : N) (x : A) (l : list (N * A))
  : list (N * A) :=
  match l with
  | [] => [(i, x)]
  | (j, y) :: rest =>
      if (i <? j)%N then (i, x) :: l else (j, y) :: insert_by_index i x rest
  end.

Fixpoint index_props {A} (props : list (jsstring * A))
  : list (N * (jsstring * A)) :=
  match props with
  | [] => []
  | (k, v) :: rest =>
      match array_index k with
      | Some i => insert_by_index i (k, v) (index_props rest)
      | None => index_props rest
      end
  end.

Definition named_props {A} (props : list (jsstring * A))
  : list (jsstring * A) :=
  filter (fun kv => match array_index (fst kv) with
                    | Some _ => false
                    | None => true
                    end) props.

Definition enumerable_own_properties {A} (props : list (jsstring * A))
  : list (jsstring * A) :=
  map snd (index_props props) ++ named_props props.

(** SerializeJSONProperty without a replacer or a gap: [None] is the
    [undefined] that makes [JSON.stringify] skip a property. No value here
    has a callable [toJSON]. *)
Fixpoint SerializeJSONProperty (v : jsval) : option jsstring :=
  match v with
  | Undefined => None
  | Null => Some (lit "null")
  | Bool true => Some (lit "true")
  | Bool false => Some (lit "false")
  | Num n => Some (if Number_isFinite n then Number_toString n else lit "null")
  | Str s => Some (QuoteJSONString s)
  | Arr items =>
      let elements :=
        (fix each (l : list jsval) : list jsstring :=
           match l with
           | [] => []
           | x :: rest =>
               match SerializeJSONProperty x with
               | Some s => s
               | None => lit "null"
               end :: each rest
           end) items in
      Some (lit "[" ++ join_with (lit ",") elements ++ lit "]")
  | Obj props =>
      let members :=
        (fix each (l : list (jsstring * jsval)) : list (jsstring * jsstring) :=
           match l with
           | [] => []
           | (k, x) :: rest =>
               match SerializeJSONProperty x with
               | Some s => (k, s) :: each rest
               | None => each rest
               end
           end) props in
      Some (lit "{"
            ++ join_with (lit ",")
                 (map (fun ks => QuoteJSONString (fst ks) ++ lit ":" ++ snd ks)
                      (enumerable_own_properties members))
            ++ lit "}")
  end.

(** [JSON.stringify(v)]. *)
Definition JSON_stringify (v : jsval) : jsval :=
  match SerializeJSONProperty v with
  | Some s => Str s
  | None => Undefined
  end.

(** *** JSON.parse

    The JSON grammar of ECMA-404, read by a lexer and a pushdown parser that
    are both structurally recursive on their input: [JSON.parse] is total, and
    throws a SyntaxError on every text the grammar rejects. *)
Inductive token : Type :=
| TLBrace | TRBrace | TLBracket | TRBracket | TColon | TComma
| TString (s : jsstring)
| TNumber (lexeme : jsstring)
| TTrue | TFalse | TNull.

(** JSON white space: TAB, LF, CR and SP only. *)
Definition is_json_space (c : code_unit) : bool :=
  ((c =? 9) || (c =? 10) || (c =? 13) || (c =? 32))%N.

Definition punctuator (c : code_unit) : option token :=
  (if c =? 123 then Some TLBrace else if c =? 125 then Some TRBrace
   else if c =? 91 then Some TLBracket else if c =? 93 then Some TRBracket
   else if c =? 58 then Some TColon else if c =? 44 then Some TComma
   else None)%N.

(** The characters of [true], [false], [null] and of numbers: letters, digits,
    [+], [-] and the dot. A maximal run of them is one word; two words of a
    JSON text are always separated by white space or a punctuator. *)
Definition is_word_unit (c : code_unit) : bool :=
  (is_digit c || (97 <=? c) && (c <=? 122) || (65 <=? c) && (c <=? 90)
   || (c =? 43) || (c =? 45) || (c =? 46))%N.

Fixpoint skip_digits (s : jsstring) : jsstring :=
  match s with
  | c :: s' => if is_digit c then skip_digits s' else s
  | [] => []
  end.

(** One or more digits, then the rest. *)
Definition digits1 (s : jsstring) : option jsstring :=
  match s with
  | c :: s' => if is_digit c then Some (skip_digits s') else None
  | [] => None
  end.

(** The number grammar: an optional minus, [0] or a digit sequence that does
    not start with [0], an optional fraction, an optional exponent. *)
Definition is_json_number (s : jsstring) : bool :=
  let unsigned := match s with
                  | 45%N :: s' => s'
                  | _ => s
                  end in
  let after_int := match unsigned with
                   | 48%N :: s' => Some s'
                   | _ => digits1 unsigned
                   end in
  let after_frac := match after_int with
                    | Some (46%N :: s') => digits1 s'
                    | other => other
                    end in
  let after_exp :=
    match after_frac with
    | Some (c :: s') =>
        if ((c =? 101) || (c =? 69))%N then
          match s' with
          | d :: s'' => if ((d =? 43) || (d =? 45))%N then digits1 s''
                        else digits1 s'
          | [] => None
          end
        else after_frac
    | other => other
    end in
  match after_exp with
  | Some [] => true
  | _ => false
  end.

Definition word_token (w : jsstring) : option token :=
  if str_eqb w (lit "true") then Some TTrue
  else if str_eqb w (lit "false") then Some TFalse
  else if str_eqb w (lit "null") then Some TNull
  else if is_json_number w then Some (TNumber w)
  else None.

Definition hex_value (c : code_unit) : option N :=
  (if is_digit c then Some (c - 48)
   else if (97 <=? c) && (c <=? 102) then Some (c - 87)
   else if (65 <=? c) && (c <=? 70) then Some (c - 55)
   else None)%N.

(** The lexer state; accumulated characters are kept in reverse. *)
Inductive lex_state : Type :=
| LStart
| LWord (acc : jsstring)
| LString (acc : jsstring)
| LEscape (acc : jsstring)
| LUnicode (acc : jsstring) (value : N) (remaining : nat).

(** Reading [c] between two tokens. *)
Definition lex_start (c : code_unit) : option (lex_state * list token) :=
  if is_json_space c then Some (LStart, [])
  else match punctuator c with
       | Some t => Some (LStart, [t])
       | None =>
           if N.eqb c 34 then Some (LString [], [])
           else if is_word_unit c then Some (LWord [c], [])
           else None
       end.

Definition lex_step (st : lex_state) (c : code_unit)
  : option (lex_state * list token) :=
  match st with
  | LStart => lex_start c
  | LWord acc =>
      if is_word_unit c then Some (LWord (c :: acc), [])
      else match word_token (rev acc), lex_start c with
           | Some t, Some (st', ts) => Some (st', t :: ts)
           | _, _ => None
           end
  | LString acc =>
      if N.eqb c 34 then Some (LStart, [TString (rev acc)])
      else if N.eqb c 92 then Some (LEscape acc, [])
      else if (c <? 32)%N then None
      else Some (LString (c :: acc), [])
  | LEscape acc =>
      (if (c =? 34) || (c =? 92) || (c =? 47) then Some (LString (c :: acc), [])
       else if c =? 98 then Some (LString (8 :: acc), [])
       else if c =? 102 then Some (LString (12 :: acc), [])
       else if c =? 110 then Some (LString (10 :: acc), [])
       else if c =? 114 then Some (LString (13 :: acc), [])
       else if c =? 116 then Some (LString (9 :: acc), [])
       else if c =? 117 then Some (LUnicode acc 0 3, [])
       else None)%N
  | LUnicode acc value remaining =>
      match hex_value c with
      | Some h =>
          let value' := (16 * value + h)%N in
          match remaining with
          | O => Some (LString (value' :: acc), [])
          | S r => Some (LUnicode acc value' r, [])
          end
      | None => None
      end
  end.

Fixpoint lex (st : lex_state) (text : jsstring) : option (list token) :=
  match text with
  | [] =>
      match st with
      | LStart => Some []
      | LWord acc => match word_token (rev acc) with
                     | Some t => Some [t]
                     | None => None
                     end
      | _ => None
      end
  | c :: text' =>
      match lex_step st c with
      | Some (st', ts) => match lex st' text' with
                          | Some rest => Some (ts ++ rest)
                          | None => None
                          end
      | None => None
      end
  end.

(** A later member of an object overwrites an earlier one of the same name,
    which keeps its place. *)
Fixpoint define_property (props : list (jsstring * jsval)) (key : jsstring)
  (v : jsval) : list (jsstring * jsval) :=
  match props with
  | [] => [(key, v)]
  | (k, x) :: rest =>
      if str_eqb k key then (k, v) :: rest
      else (k, x) :: define_property rest key v
  end.

(** The containers under construction around the value being read. *)
Inductive frame : Type :=
| InArr (before : list jsval)
| InObj (props : list (jsstring * jsval)) (key : jsstring).

Inductive parse_state : Type :=
| PValue (stack : list frame)
| PArrStart (stack : list frame)
| PArrNext (before : list jsval) (stack : list frame)
| PObjStart (stack : list frame)
| PObjKey (props : list (jsstring * jsval)) (stack : list frame)
| PObjColon (props : list (jsstring * jsval)) (key : jsstring)
    (stack : list frame)
| PObjNext (props : list (jsstring * jsval)) (stack : list frame)
| PDone (v : jsval).

(** A value is complete: it goes into the innermost container. *)
Definition complete (v : jsval) (stack : list frame) : parse_state :=
  match stack with
  | [] => PDone v
  | InArr before :: stack' => PArrNext (v :: before) stack'
  | InObj props key :: stack' => PObjNext (define_property props key v) stack'
  end.

Definition begin_value (t : token) (stack : list frame) : option parse_state :=
  match t with
  | TString s => Some (complete (Str s) stack)
  | TNumber lexeme => Some (complete (Num (StringToNumber lexeme)) stack)
  | TTrue => Some (complete (Bool true) stack)
  | TFalse => Some (complete (Bool false) stack)
  | TNull => Some (complete Null stack)
  | TLBracket => Some (PArrStart stack)
  | TLBrace => Some (PObjStart stack)
  | _ => None
  end.

Definition parse_step (st : parse_state) (t : token) : option parse_state :=
  match st, t with
  | PValue stack, _ => begin_value t stack
  | PArrStart stack, TRBracket => Some (complete (Arr []) stack)
  | PArrStart stack, _ => begin_value t (InArr [] :: stack)
  | PArrNext before stack, TComma => Some (PValue (InArr before :: stack))
  | PArrNext before stack, TRBracket => Some (complete (Arr (rev before)) stack)
  | PObjStart stack, TRBrace => Some (complete (Obj []) stack)
  | PObjStart stack, TString key => Some (PObjColon [] key stack)
  | PObjKey props stack, TString key => Some (PObjColon props key stack)
  | PObjColon props key stack, TColon => Some (PValue (InObj props key :: stack))
  | PObjNext props stack, TComma => Some (PObjKey props stack)
  | PObjNext props stack, TRBrace => Some (complete (Obj props) stack)
  | _, _ => None
  end.

Fixpoint parse_tokens (st : parse_state) (ts : list token) : option jsval :=
  match ts with
  | [] => match st with
          | PDone v => Some v
          | _ => None
          end
  | t :: ts' => match parse_step st t with
                | Some st' => parse_tokens st' ts'
                | None => None
                end
  end.

(** [JSON.parse(text)] applied to a string. *)
Definition parse_text (text : jsstring) : outcome jsval :=
  match lex LStart text with
  | Some ts => match parse_tokens (PValue []) ts with
               | Some v => Ok v
               | None => Raise SyntaxError
               end
  | None => Raise SyntaxError
  end.

(** [JSON.parse(v)]: the argument is first converted to a string. *)
Definition JSON_parse (v : jsval) : outcome jsval :=
  let! text := ToString v in parse_text text.

End Values.

(** ** Effects and statements *)

Section Effects.
Context {E : Engine}.

(** The second argument of [fetch]. *)
Record request_init : Type := {
  method : jsstring;
  headers : list (jsstring * jsstring);
  body : jsval
}.

(** What the program reads of the response of [fetch]: [ok], [status], and
    the promise returned by [json()]. *)
Record response : Type := {
  ok : bool;
  status : number;
  json_body : outcome jsval
}.

(** The argument of [transporter.sendMail]. *)
Record mail_options : Type := {
  mail_from : jsstring;
  mail_to : jsval;
  mail_subject : jsstring;
  mail_html : jsstring
}.

(** The observable effects of a run, in the order they happen. *)
Inductive effect : Type :=
| ConsoleLog (line : jsstring)
| ConsoleError (line : jsstring) (error : option exn)
| Fetch (url : jsstring) (init : request_init)
| SendMail (m : mail_options)
| SendStatus (code : N).

(** What surrounds one run of the handler: the two environment variables the
    code reads and the behaviour of the two external services, each as a
    function of the request it is sent. An entry of [process.env] is a string,
    or [undefined] when the variable is unset. *)
Record world : Type := {
  GEMINI_API_KEY : option jsstring;
  EMAIL_FROM : option jsstring;
  fetch_reply : jsstring -> request_init -> outcome response;
  sendMail_reply : mail_options -> outcome unit
}.

Definition env (entry : option jsstring) : jsval :=
  match entry with
  | Some s => Str s
  | None => Undefined
  end.

(** A promise that has run: the effects performed until it settled, and how
    it settled ([Ok]: fulfilled, [Raise]: rejected). *)
Definition promise (A : Type) : Type := (list effect * outcome A)%type.

(** The completion of a statement: normal, a [return], or a throw. *)
Inductive completion (R A : Type) : Type :=
| Normal (a : A)
| Return (r : R)
| Throw (e : exn).

Arguments Normal {R A} a.
Arguments Return {R A} r.
Arguments Throw {R A} e.

(** Statements of a function whose [return] carries an [R]. *)
Definition M (R A : Type) : Type := (list effect * completion R A)%type.

Definition ret {R A} (a : A) : M R A := ([], Normal a).

Definition bind {R A B} (m : M R A) (k : A -> M R B) : M R B :=
  match m with
  | (t, Normal a) => let (t', c) := k a in (t ++ t', c)
  | (t, Return r) => (t, Return r)
  | (t, Throw e) => (t, Throw e)
  end.

(** [return r;] *)
Definition return_ {R A} (r : R) : M R A := ([], Return r).

(** [throw e;] *)
Definition throw {R A} (e : exn) : M R A := ([], Throw e).

(** An expression evaluated inside a statement. *)
Definition eval {R A} (o : outcome A) : M R A :=
  match o with
  | Ok a => ([], Normal a)
  | Raise e => ([], Throw e)
  end.

(** [await p] *)
Definition await {R A} (p : promise A) : M R A :=
  match p with
  | (t, Ok a) => (t, Normal a)
  | (t, Raise e) => (t, Throw e)
  end.

(** [try { body } catch (error) { handler }]: only a throw is caught. *)
Definition try_catch {R A} (body : M R A) (handler : exn -> M R A) : M R A :=
  match body with
  | (t, Throw e) => let (t', c) := handler e in (t ++ t', c)
  | other => other
  end.

(** An async function with the given body: the promise it returns is
    fulfilled with the returned value, with [falls_off] when the body ends
    without a [return], and rejected when the body throws. *)
Definition async_function {R} (falls_off : R) (body : M R unit) : promise R :=
  match body with
  | (t, Normal _) => (t, Ok falls_off)
  | (t, Return r) => (t, Ok r)
  | (t, Throw e) => (t, Raise e)
  end.

Definition emit {R} (e : effect) : M R unit := ([e], Normal tt).

(** [console.log(line)], [console.error(line)] and [console.error(line, error)] *)
Definition console_log {R} (line : jsstring) : M R unit :=
  emit (ConsoleLog line).
Definition console_error {R} (line : jsstring) (error : option exn) : M R unit :=
  emit (ConsoleError line error).

(** [fetch(url, init)] *)
Definition fetch (w : world) (url : jsstring) (init : request_init)
  : promise response :=
  ([Fetch url init], fetch_reply w url init).

(** [apiResponse.json()] *)
Definition json (r : response) : promise jsval := ([], json_body r).

(** [transporter.sendMail(options)] *)
Definition sendMail (w : world) (m : mail_options) : promise unit :=
  ([SendMail m], sendMail_reply w m).

(** [res.sendStatus(code)] *)
Definition sendStatus {R} (code : N) : M R unit := emit (SendStatus code).

(** *** Template literals

    The substitutions are evaluated and converted with [ToString] from left
    to right; the first one that throws ends the evaluation. *)
Inductive part : Type :=
| txt (s : jsstring)
| sub (v : jsval)
| sube (e : outcome jsval).

Fixpoint template (parts : list part) : outcome jsstring :=
  match parts with
  | [] => Ok []
  | txt s :: rest => let! r := template rest in Ok (s ++ r)
  | sub v :: rest =>
      let! s := ToString v in let! r := template rest in Ok (s ++ r)
  | sube e :: rest =>
      let! v := e in
      let! s := ToString v in let! r := template rest in Ok (s ++ r)
  end.

(** *** What a trace contains *)
Definition mails (t : list effect) : list mail_options :=
  flat_map (fun e => match e with SendMail m => [m] | _ => [] end) t.

Definition fetches (t : list effect) : list (jsstring * request_init) :=
  flat_map (fun e => match e with Fetch u i => [(u, i)] | _ => [] end) t.

Definition responses (t : list effect) : list N :=
  flat_map (fun e => match e with SendStatus c => [c] | _ => [] end) t.

End Effects.

Arguments Normal {R A} a.
Arguments Return {R A} r.
Arguments Throw {R A} e.

Notation "x <- c1 ;; c2" := (bind c1 (fun x => c2))
  (at level 61, c1 at next level, right associativity) : js_scope.
Notation "c1 ;; c2" := (bind c1 (fun _ => c2))
  (at level 61, right associativity) : js_scope.

(** ** [src/server.js] *)

Module Server.
Section Source.
Context {E : Engine} (w : world).

(** [async function generateThankYouMessage(name, amount, message)],
    lines 33 to 64. *)
Definition generateThankYouMessage (name amount message : jsval)
  : promise jsval :=
  async_function Undefined
    (try_catch
       (prompt <-
          eval (template
            [txt (lit "Write a short, warm, and personal thank you message for a");
             txt (lit " person named ");
             sub name;
             txt (lit " who just donated $");
             sub amount;
             txt (lit ". This donation is for our `HopeSpring Foundation`");
             txt (lit " fundraiser, which provides school supplies for");
             txt (lit " underprivileged children. Mention the impact on the");
             txt (lit " children.")]) ;;
        prompt <-
          (if ToBoolean message then
             more <-
               eval (template
                 [txt (lit " The donor also left this kind message: `");
                  sub message;
                  txt (lit "`. Please subtly weave a reference to their message into");
                  txt (lit " your thank you.")]) ;;
             ret (prompt ++ more)
           else ret prompt) ;;
        let prompt :=
          prompt
          ++ lit " Keep the tone grateful and heartfelt. Two sentences maximum." in
        geminiApiUrl <-
          eval (template
            [txt (lit "https://generativelanguage.googleapis.com/v1beta/models/gemini-1.5-flash-latest:generateContent?key=");
             sub (env (GEMINI_API_KEY w))]) ;;
        apiResponse <-
          await (fetch w geminiApiUrl
                   {| method := lit "POST";
                      headers := [(lit "Content-Type", lit "application/json")];
                      body :=
                        JSON_stringify
                          (Obj [(lit "contents",
                                 Arr [Obj [(lit "parts",
                                            Arr [Obj [(lit "text",
                                                       Str prompt)]])]])]) |}) ;;
        (if negb (ok apiResponse) then
           line <-
             eval (template
               [txt (lit "Gemini API request failed with status ");
                sub (Num (status apiResponse))]) ;;
           console_error line None ;;
           throw (Error (lit "API request failed"))
         else ret tt) ;;
        data <- await (json apiResponse) ;;
        test <- eval (let! candidates := Get data (lit "candidates") in
                      if ToBoolean candidates then
                        let! candidates := Get data (lit "candidates") in
                        let! len := Get candidates (lit "length") in
                        greater_than_zero len
                      else Ok false) ;;
        if (test : bool) then
          text <- eval (let! candidates := Get data (lit "candidates") in
                        let! first := Get candidates (lit "0") in
                        let! content := Get first (lit "content") in
                        let! parts := Get content (lit "parts") in
                        let! first_part := Get parts (lit "0") in
                        let! text := Get first_part (lit "text") in
                        call_trim text) ;;
          return_ text
        else
          throw (Error (lit "Invalid response structure from Gemini API.")))
       (fun error =>
          console_error (lit "Error generating AI message:") (Some error) ;;
          fallback <-
            eval (template
              [txt (lit "Thank you so much for your generous donation of $");
               sub amount;
               txt (lit ", ");
               sub name;
               txt (lit "! Your support means the world to us and will make a real");
               txt (lit " difference.")]) ;;
          return_ (Str fallback))).

(** The handler of [app.post('/api/webhooks/paypal', ...)], lines 124 to
    225, applied to [req.body]. The value of [res.sendStatus(500)], which
    the handler returns and Express ignores, is not represented. *)
Definition webhook_handler (event : jsval) : promise unit :=
  async_function tt
    (event_type <- eval (Get event (lit "event_type")) ;;
     (if strict_equals_string event_type (lit "PAYMENT.CAPTURE.COMPLETED") then
        console_log (9989%N :: lit " Received successful payment webhook.") ;;
        try_catch
          (capture <- eval (Get event (lit "resource")) ;;
           amount <- eval (let! amount := Get capture (lit "amount") in
                           Get amount (lit "value")) ;;
           purchase_unit <-
             eval (let! purchase_units := Get capture (lit "purchase_units") in
                   Get purchase_units (lit "0")) ;;
           donorInfo <-
             eval (let! custom_id := Get purchase_unit (lit "custom_id") in
                   JSON_parse custom_id) ;;
           name <- eval (Get donorInfo (lit "name")) ;;
           email <- eval (Get donorInfo (lit "email")) ;;
           message <- eval (Get donorInfo (lit "message")) ;;
           let cause := Str (lit "HopeSpring Foundation's Children's Fund") in
           line <-
             eval (template
               [txt (lit "Processing donation: ");
                sub amount;
                txt (lit " from ");
                sub name;
                txt (lit " (");
                sub email;
                txt (lit ")")]) ;;
           console_log line ;;
           aiMessage <- await (generateThankYouMessage name amount message) ;;
           console_log (55358%N :: 56598%N :: lit " AI message generated.") ;;
           sender <-
             eval (template
               [txt (lit "`HopeSpring Foundation` <");
                sub (env (EMAIL_FROM w));
                txt (lit ">")]) ;;
           html <-
             eval (template
               [txt (lit "
                <!DOCTYPE html>
                <html lang=`en`>
                <head>
                    <meta charset=`UTF-8`>
                    <meta name=`viewport` content=`width=device-width, initial-scale=1.0`>
                    <title>Thank You for Your Donation!</title>
                    <style>
                        body, table, td, a { -webkit-text-size-adjust: 100%; -ms-text-size-adjust: 100%; }
                        table, td { mso-table-lspace: 0pt; mso-table-rspace: 0pt; }
                        img { -ms-interpolation-mode: bicubic; border: 0; height: auto; line-height: 100%; outline: none; text-decoration: none; }
                        table { border-collapse: collapse !important; }
                        body { height: 100% !important; margin: 0 !important; padding: 0 !important; width: 100% !important; font-family: 'Inter', Arial, sans-serif; }
                        .container { width: 100%; max-width: 600px; margin: 0 auto; background-color: #1a1a1a; border-radius: 16px; overflow: hidden; border: 1px solid #333333; }
                        .header { background-color: #4f46e5; color: #ffffff; padding: 48px 32px; text-align: center; }
                        .header h1 { margin: 0; font-size: 32px; font-weight: 700; }
                        .content { padding: 40px 32px; color: #d1d5db; line-height: 1.7; font-size: 16px; }
                        .content p { margin: 0 0 20px; }
                        .donation-details { background-color: #2a2a2a; border-radius: 12px; padding: 24px; margin: 28px 0; border-left: 4px solid #4f46e5; }
                        .donation-details p { margin: 0 0 12px; font-size: 16px; }
                        .donation-details p:last-child { margin-bottom: 0; }
                        .donation-details strong { color: #ffffff; }
                        .gemini-message { background-color: #252244; border-radius: 12px; padding: 28px; margin: 28px 0; font-style: italic; color: #c7d2fe; text-align: center; font-size: 18px; line-height: 1.6; }
                        .gemini-message p { margin: 0; }
                        .footer { background-color: #111111; color: #9ca3af; padding: 32px; text-align: center; font-size: 14px; }
                        .footer a { color: #818cf8; text-decoration: none; font-weight: 500; }
                    </style>
                </head>
                <body style=`background-color: #000000; padding: 40px 24px;`>
                    <table border=`0` cellpadding=`0` cellspacing=`0` width=`100%`>
                        <tr>
                            <td align=`center`>
                                <table border=`0` cellpadding=`0` cellspacing=`0` class=`container`>
                                    <tr><td class=`header`><h1>Thank You!</h1></td></tr>
                                    <tr>
                                        <td class=`content`>
                                            <p>Dear ");
                sub name;
                txt (lit ",</p>
                                            <p>We are incredibly grateful for your recent contribution to <strong>HopeSpring Foundation</strong>. Your support makes a real difference and helps us continue our mission.</p>
                                            <div class=`donation-details`>
                                                <p><strong>Amount:</strong> $");
                sub amount;
                txt (lit "</p>
                                                <p><strong>Cause:</strong> ");
                sub cause;
                txt (lit "</p>
                                                <p><strong>Transaction ID:</strong> ");
                sube (Get capture (lit "id"));
                txt (lit "</p>
                                            </div>
                                            <div class=`gemini-message`><p>`");
                sub aiMessage;
                txt (lit "`</p></div>
                                            <p>Your kindness is what fuels our work. Thank you once again for your generous support.</p>
                                        </td>
                                    </tr>
                                    <tr>
                                        <td class=`footer`>
                                            <p>&copy; 2025 HopeSpring Foundation. All Rights Reserved.</p>
                                            <p><a href=`http://localhost:3000` target=`_blank`>Visit Our Fundraiser</a></p>
                                        </td>
                                    </tr>
                                </table>
                            </td>
                        </tr>
                    </table>
                </body>
                </html>
                ")]) ;;
           await (sendMail w {| mail_from := sender;
                                mail_to := email;
                                mail_subject :=
                                  lit "Your incredible support for the HopeSpring Foundation!";
                                mail_html := html |}) ;;
           line <-
             eval (template
               (txt [9993%N; 65039%N] ::
                [txt (lit " Sent new dark-mode email to ");
                 sub email;
                 txt (lit ".")])) ;;
           console_log line)
          (fun error =>
             console_error (lit "Error processing webhook:") (Some error) ;;
             sendStatus 500 ;;
             return_ tt)
      else ret tt) ;;
     sendStatus 200).

End Source.
End Server.

(** ** [src/unnamed/part_000] *)

Module Part000.
Section Source.
Context {E : Engine} (w : world).

(** [async function generateThankYouMessage(name, amount, message)],
    lines 29 to 59. *)
Definition generateThankYouMessage (name amount message : jsval)
  : promise jsval :=
  async_function Undefined
    (try_catch
       (prompt <-
          eval (template
            [txt (lit "Write a short, warm, and personal thank you message for a");
             txt (lit " person named ");
             sub name;
             txt (lit " who just donated $");
             sub amount;
             txt (lit ". This donation is for our `HopeSpring Foundation`");
             txt (lit " fundraiser, which provides school supplies for");
             txt (lit " underprivileged children. Mention the impact on the");
             txt (lit " children.")]) ;;
        prompt <-
          (if ToBoolean message then
             more <-
               eval (template
                 [txt (lit " The donor also left this kind message: `");
                  sub message;
                  txt (lit "`. Please subtly weave a reference to their message into");
                  txt (lit " your thank you.")]) ;;
             ret (prompt ++ more)
           else ret prompt) ;;
        let prompt :=
          prompt
          ++ lit " Keep the tone grateful and heartfelt. Two sentences maximum." in
        geminiApiUrl <-
          eval (template
            [txt (lit "https://generativelanguage.googleapis.com/v1beta/models/gemini-1.5-flash-latest:generateContent?key=");
             sub (env (GEMINI_API_KEY w))]) ;;
        apiResponse <-
          await (fetch w geminiApiUrl
                   {| method := lit "POST";
                      headers := [(lit "Content-Type", lit "application/json")];
                      body :=
                        JSON_stringify
                          (Obj [(lit "contents",
                                 Arr [Obj [(lit "parts",
                                            Arr [Obj [(lit "text",
                                                       Str prompt)]])]])]) |}) ;;
        (if negb (ok apiResponse) then
           line <-
             eval (template
               [txt (lit "Gemini API request failed with status ");
                sub (Num (status apiResponse))]) ;;
           console_error line None ;;
           throw (Error (lit "API request failed"))
         else ret tt) ;;
        data <- await (json apiResponse) ;;
        test <- eval (let! candidates := Get data (lit "candidates") in
                      if ToBoolean candidates then
                        let! candidates := Get data (lit "candidates") in
                        let! len := Get candidates (lit "length") in
                        greater_than_zero len
                      else Ok false) ;;
        if (test : bool) then
          text <- eval (let! candidates := Get data (lit "candidates") in
                        let! first := Get candidates (lit "0") in
                        let! content := Get first (lit "content") in
                        let! parts := Get content (lit "parts") in
                        let! first_part := Get parts (lit "0") in
                        let! text := Get first_part (lit "text") in
                        call_trim text) ;;
          return_ text
        else
          throw (Error (lit "Invalid response structure from Gemini API.")))
       (fun error =>
          console_error (lit "Error generating AI message:") (Some error) ;;
          fallback <-
            eval (template
              [txt (lit "Thank you so much for your generous donation of $");
               sub amount;
               txt (lit ", ");
               sub name;
               txt (lit "! Your support means the world to us and will make a real");
               txt (lit " difference.")]) ;;
          return_ (Str fallback))).

(** The handler of [app.post('/api/webhooks/paypal', ...)], lines 108 to
    195, applied to [req.body]. The value of [res.sendStatus(500)], which
    the handler returns and Express ignores, is not represented. *)
Definition webhook_handler (event : jsval) : promise unit :=
  async_function tt
    (event_type <- eval (Get event (lit "event_type")) ;;
     (if strict_equals_string event_type (lit "PAYMENT.CAPTURE.COMPLETED") then
        console_log (9989%N :: lit " Received successful payment webhook.") ;;
        try_catch
          (capture <- eval (Get event (lit "resource")) ;;
           amount <- eval (let! amount := Get capture (lit "amount") in
                           Get amount (lit "value")) ;;
           purchase_unit <-
             eval (let! purchase_units := Get capture (lit "purchase_units") in
                   Get purchase_units (lit "0")) ;;
           donorInfo <-
             eval (let! custom_id := Get purchase_unit (lit "custom_id") in
                   JSON_parse custom_id) ;;
           name <- eval (Get donorInfo (lit "name")) ;;
           email <- eval (Get donorInfo (lit "email")) ;;
           message <- eval (Get donorInfo (lit "message")) ;;
           let cause := Str (lit "HopeSpring Foundation's Children's Fund") in
           line <-
             eval (template
               [txt (lit "Processing donation: ");
                sub amount;
                txt (lit " from ");
                sub name;
                txt (lit " (");
                sub email;
                txt (lit ")")]) ;;
           console_log line ;;
           aiMessage <- await (generateThankYouMessage name amount message) ;;
           console_log (55358%N :: 56598%N :: lit " AI message generated.") ;;
           sender <-
             eval (template
               [txt (lit "`HopeSpring Foundation` <");
                sub (env (EMAIL_FROM w));
                txt (lit ">")]) ;;
           html <-
             eval (template
               [txt (lit "
                <!DOCTYPE html>
                <html lang=`en`>
                <head>
                    <meta charset=`UTF-8`>
                    <meta name=`viewport` content=`width=device-width, initial-scale=1.0`>
                    <title>Thank You for Your Donation!</title>
                    <style>
                        body, table, td, a { -webkit-text-size-adjust: 100%; -ms-text-size-adjust: 100%; }
                        table, td { mso-table-lspace: 0pt; mso-table-rspace: 0pt; }
                        img { -ms-interpolation-mode: bicubic; border: 0; height: auto; line-height: 100%; outline: none; text-decoration: none; }
                        table { border-collapse: collapse !important; }
                        body { height: 100% !important; margin: 0 !important; padding: 0 !important; width: 100% !important; font-family: 'Inter', Arial, sans-serif; }
                        .container { width: 100%; max-width: 600px; margin: 0 auto; background-color: #1a1a1a; border-radius: 16px; overflow: hidden; border: 1px solid #333333; }
                        .header { background-color: #4f46e5; color: #ffffff; padding: 48px 32px; text-align: center; }
                        .header h1 { margin: 0; font-size: 32px; font-weight: 700; }
                        .content { padding: 40px 32px; color: #d1d5db; line-height: 1.7; font-size: 16px; }
                        .content p { margin: 0 0 20px; }
                        .donation-details { background-color: #2a2a2a; border-radius: 12px; padding: 24px; margin: 28px 0; border-left: 4px solid #4f46e5; }
                        .donation-details p { margin: 0 0 12px; font-size: 16px; }
                        .donation-details p:last-child { margin-bottom: 0; }
                        .donation-details strong { color: #ffffff; }
                        .gemini-message { background-color: #252244; border-radius: 12px; padding: 28px; margin: 28px 0; font-style: italic; color: #c7d2fe; text-align: center; font-size: 18px; line-height: 1.6; }
                        .gemini-message p { margin: 0; }
                        .footer { background-color: #111111; color: #9ca3af; padding: 32px; text-align: center; font-size: 14px; }
                        .footer a { color: #818cf8; text-decoration: none; font-weight: 500; }
                    </style>
                </head>
                <body style=`background-color: #000000; padding: 40px 24px;`>
                    <table border=`0` cellpadding=`0` cellspacing=`0` width=`100%`>
                        <tr>
                            <td align=`center`>
                                <table border=`0` cellpadding=`0` cellspacing=`0` class=`container`>
                                    <tr><td class=`header`><h1>Thank You!</h1></td></tr>
                                    <tr>
                                        <td class=`content`>
                                            <p>Dear ");
                sub name;
                txt (lit ",</p>
                                            <p>We are incredibly grateful for your recent contribution to <strong>HopeSpring Foundation</strong>. Your support makes a real difference and helps us continue our mission.</p>
                                            <div class=`donation-details`>
                                                <p><strong>Amount:</strong> $");
                sub amount;
                txt (lit "</p>
                                                <p><strong>Cause:</strong> ");
                sub cause;
                txt (lit "</p>
                                                <p><strong>Transaction ID:</strong> ");
                sube (Get capture (lit "id"));
                txt (lit "</p>
                                            </div>
                                            <div class=`gemini-message`><p>`");
                sub aiMessage;
                txt (lit "`</p></div>
                                            <p>Your kindness is what fuels our work. Thank you once again for your generous support.</p>
                                        </td>
                                    </tr>
                                    <tr>
                                        <td class=`footer`>
                                            <p>&copy; 2025 HopeSpring Foundation. All Rights Reserved.</p>
                                            <p><a href=`http://localhost:3000` target=`_blank`>Visit Our Fundraiser</a></p>
                                        </td>
                                    </tr>
                                </table>
                            </td>
                        </tr>
                    </table>
                </body>
                </html>
                ")]) ;;
           await (sendMail w {| mail_from := sender;
                                mail_to := email;
                                mail_subject :=
                                  lit "Your incredible support for the HopeSpring Foundation!";
                                mail_html := html |}) ;;
           line <-
             eval (template
               (txt [9993%N; 65039%N] ::
                [txt (lit " Sent new dark-mode email to ");
                 sub email;
                 txt (lit ".")])) ;;
           console_log line)
          (fun error =>
             console_error (lit "Error processing webhook:") (Some error) ;;
             sendStatus 500 ;;
             return_ tt)
      else ret tt) ;;
     sendStatus 200).

End Source.
End Part000.

(** ** An engine to run the model

    The embedding above holds for every [Engine]. To evaluate the handler on
    concrete events an engine is needed; this one has the integers and NaN
    for numbers. It reads a numeric string that is an optionally signed digit
    sequence as that integer and every other non-blank string as NaN, so it
    agrees with JavaScript on the JSON documents whose numbers are integers
    below 2^53 in magnitude. *)
Module IntegerEngine.

Fixpoint uint_units (d : Decimal.uint) : jsstring :=
  match d with
  | Decimal.Nil => []
  | Decimal.D0 d' => 48%N :: uint_units d'
  | Decimal.D1 d' => 49%N :: uint_units d'
  | Decimal.D2 d' => 50%N :: uint_units d'
  | Decimal.D3 d' => 51%N :: uint_units d'
  | Decimal.D4 d' => 52%N :: uint_units d'
  | Decimal.D5 d' => 53%N :: uint_units d'
  | Decimal.D6 d' => 54%N :: uint_units d'
  | Decimal.D7 d' => 55%N :: uint_units d'
  | Decimal.D8 d' => 56%N :: uint_units d'
  | Decimal.D9 d' => 57%N :: uint_units d'
  end.

Definition to_string (x : option Z) : jsstring :=
  match x with
  | None => lit "NaN"
  | Some Z0 => lit "0"
  | Some (Zpos p) => uint_units (Pos.to_uint p)
  | Some (Zneg p) => lit "-" ++ uint_units (Pos.to_uint p)
  end.

Definition all_digits (s : jsstring) : option N :=
  match s with
  | [] => None
  | _ :: _ => digits_value 0 s
  end.

Definition of_string (s : jsstring) : option Z :=
  match trim s with
  | [] => Some 0%Z
  | 45%N :: s' => option_map (fun n => Z.opp (Z.of_N n)) (all_digits s')
  | 43%N :: s' => option_map Z.of_N (all_digits s')
  | s' => option_map Z.of_N (all_digits s')
  end.

Definition gt_zero (x : option Z) : bool :=
  match x with
  | Some z => (0 <? z)%Z
  | None => false
  end.

Definition of_nat_gt_zero (n : nat)
  : gt_zero (Some (Z.of_nat n)) = negb (Nat.eqb n 0) :=
  match n with
  | O => eq_refl
  | S _ => eq_refl
  end.

#[export] Instance engine : Engine := {|
  number := option Z;
  Number_of_nat := fun n => Some (Z.of_nat n);
  StringToNumber := of_string;
  Number_toString := to_string;
  Number_toBoolean := fun x => match x with
                               | Some z => negb (Z.eqb z 0)
                               | None => false
                               end;
  Number_isFinite := fun x => match x with
                              | Some _ => true
                              | None => false
                              end;
  Number_gt_zero := gt_zero;
  Number_of_nat_gt_zero := of_nat_gt_zero
|}.

End IntegerEngine.

(** ** Vocabulary of the specification *)

Section Vocabulary.
Context {E : Engine}.

(** The recognized capture-completed tag. *)
Definition capture_completed : jsstring := lit "PAYMENT.CAPTURE.COMPLETED".

Definition recognized (event : jsval) : Prop :=
  Get event (lit "event_type") = Ok (Str capture_completed).

(** What the handler reads of a recognized event before it does anything
    else (lines 132 to 139 of [src/server.js]): the capture, its amount, and
    the donor intent parsed from the [custom_id] of the first purchase unit. *)
Record donation : Type := {
  capture : jsval;
  amount_value : jsval;
  donor_name : jsval;
  donor_email : jsval;
  donor_message : jsval
}.

Definition ingest (event : jsval) : outcome donation :=
  let! capture := Get event (lit "resource") in
  let! amount := (let! amount := Get capture (lit "amount") in
                  Get amount (lit "value")) in
  let! purchase_unit :=
    (let! purchase_units := Get capture (lit "purchase_units") in
     Get purchase_units (lit "0")) in
  let! donorInfo := (let! custom_id := Get purchase_unit (lit "custom_id") in
                     JSON_parse custom_id) in
  let! name := Get donorInfo (lit "name") in
  let! email := Get donorInfo (lit "email") in
  let! message := Get donorInfo (lit "message") in
  Ok {| capture := capture; amount_value := amount; donor_name := name;
        donor_email := email; donor_message := message |}.

(** A value a template literal can interpolate. Every string, number,
    boolean, [null] and [undefined] is one. *)
Definition printable (v : jsval) : Prop := exists s, ToString v = Ok s.

(** The four values of a donation that the console message and the mail
    interpolate: amount, name, email and the transaction id. *)
Definition renderable (d : donation) : Prop :=
  printable (amount_value d) /\ printable (donor_name d)
  /\ printable (donor_email d)
  /\ exists id, Get (capture d) (lit "id") = Ok id /\ printable id.

(** A required field of the donor intent that is missing or empty. *)
Definition missing_or_empty (v : jsval) : Prop := v = Undefined \/ v = Str [].

(** The metadata of an event cannot be used: the path to the [custom_id] is
    absent at the resource, at the purchase units or at the first unit, or
    the [custom_id] (absent or present) does not parse as JSON. *)
Inductive unusable_metadata (event : jsval) : Prop :=
| resource_absent resource :
    Get event (lit "resource") = Ok resource ->
    is_nullish resource = true -> unusable_metadata event
| purchase_units_absent resource purchase_units :
    Get event (lit "resource") = Ok resource ->
    Get resource (lit "purchase_units") = Ok purchase_units ->
    is_nullish purchase_units = true -> unusable_metadata event
| purchase_unit_absent resource purchase_units purchase_unit :
    Get event (lit "resource") = Ok resource ->
    Get resource (lit "purchase_units") = Ok purchase_units ->
    Get purchase_units (lit "0") = Ok purchase_unit ->
    is_nullish purchase_unit = true -> unusable_metadata event
| custom_id_not_json resource purchase_units purchase_unit custom_id e :
    Get event (lit "resource") = Ok resource ->
    Get resource (lit "purchase_units") = Ok purchase_units ->
    Get purchase_units (lit "0") = Ok purchase_unit ->
    Get purchase_unit (lit "custom_id") = Ok custom_id ->
    JSON_parse custom_id = Raise e -> unusable_metadata event.

(** The fixed fallback template, as the specification describes it: a fixed
    text that interpolates the amount and the name and nothing else. *)
Definition fallback_message (amount name : jsstring) : jsstring :=
  lit "Thank you so much for your generous donation of $" ++ amount
  ++ lit ", " ++ name
  ++ lit "! Your support means the world to us and will make a real difference.".

(** The candidate text of a decoded response body, trimmed:
    [data.candidates[0].content.parts[0].text.trim()]. *)
Definition candidate_text (data : jsval) : outcome jsval :=
  let! candidates := Get data (lit "candidates") in
  let! first := Get candidates (lit "0") in
  let! content := Get first (lit "content") in
  let! parts := Get content (lit "parts") in
  let! first_part := Get parts (lit "0") in
  let! text := Get first_part (lit "text") in
  call_trim text.

(** The white space that [String.prototype.trim] strips, as ECMAScript lists
    it: the code points of WhiteSpace (TAB, VT, FF, SP, NBSP, ZWNBSP and the
    space separators U+1680, U+2000 to U+200A, U+202F, U+205F, U+3000) and of
    LineTerminator (LF, CR, LS, PS). *)
Definition white_space_unit (c : code_unit) : Prop :=
  (c = 9 \/ c = 10 \/ c = 11 \/ c = 12 \/ c = 13 \/ c = 32 \/ c = 160
   \/ c = 5760 \/ (8192 <= c /\ c <= 8202) \/ c = 8232 \/ c = 8233
   \/ c = 8239 \/ c = 8287 \/ c = 12288 \/ c = 65279)%N.

(** A string that neither starts nor ends with white space. *)
Definition bare (s : jsstring) : Prop :=
  (forall c rest, s = c :: rest -> ~ white_space_unit c)
  /\ (forall rest c, s = rest ++ [c] -> ~ white_space_unit c).

(** [s] is [text] without the white space around it. *)
Definition stripped (text s : jsstring) : Prop :=
  exists leading trailing,
    text = leading ++ s ++ trailing
    /\ Forall white_space_unit leading /\ Forall white_space_unit trailing
    /\ bare s.



(** The catch block of the handler has run: its message is on the console. *)
Definition processing_failed (t : list effect) : bool :=
  existsb (fun e => match e with
                    | ConsoleError line _ =>
                        str_eqb line (lit "Error processing webhook:")
                    | _ => false
                    end) t.

(** The two places of the HTML template between which the acknowledgement
    is interpolated. *)
Definition before_acknowledgement : jsstring :=
  lit "<div class=`gemini-message`><p>`".
Definition after_acknowledgement : jsstring := lit "`</p></div>".

Definition embeds (html acknowledgement : jsstring) : Prop :=
  exists before after,
    html = before ++ before_acknowledgement ++ acknowledgement
           ++ after_acknowledgement ++ after.

(** *** Properties of every effect of a computation *)

Definition traced {R A} (P : effect -> Prop) (m : M R A) : Prop :=
  Forall P (fst m).

Definition ptraced {A} (P : effect -> Prop) (p : promise A) : Prop :=
  Forall P (fst p).


(** An effect that is neither a mail, nor an HTTP response, nor the console
    message of the catch block of the handler. *)
Definition harmless (e : effect) : Prop :=
  match e with
  | SendMail _ | SendStatus _ => False
  | ConsoleError line _ =>
      str_eqb line (lit "Error processing webhook:") = false
  | _ => True
  end.

(** An effect that is neither an HTTP response nor the console message of the
    catch block of the handler. *)
Definition unanswered (e : effect) : Prop :=
  match e with
  | SendStatus _ => False
  | ConsoleError line _ =>
      str_eqb line (lit "Error processing webhook:") = false
  | _ => True
  end.

End Vocabulary.

(** ** Three sentences of the specification, as they are written

    Each of them fails on the code; the theorems below prove what holds
    instead. *)


(** A donor intent without a name or without an email is a validation error:
    failure is reported and no send is attempted. *)
Definition rejects_incomplete_intent (E : Engine) : Prop :=
  forall (w : world) (event : jsval) (d : donation),
    recognized event -> ingest event = Ok d ->
    missing_or_empty (donor_name d) \/ missing_or_empty (donor_email d) ->
    responses (fst (Server.webhook_handler w event)) = [500%N]
    /\ mails (fst (Server.webhook_handler w event)) = [].


(** ** Events and worlds of the scenarios of the specification *)

Module Scenario.
Import IntegerEngine.

Definition event (event_type amount custom_id : string) : jsval :=
  Obj [(lit "event_type", Str (lit event_type));
       (lit "resource",
        Obj [(lit "id", Str (lit "5O190127TN364715T"));
             (lit "amount", Obj [(lit "currency_code", Str (lit "USD"));
                                 (lit "value", Str (lit amount))]);
             (lit "purchase_units",
              Arr [Obj [(lit "custom_id", Str (lit custom_id))]])])].

(** Scenario A: a completed capture of 25.00 from Ada. *)
Definition ada : jsval :=
  event "PAYMENT.CAPTURE.COMPLETED" "25.00"
    "{`name`:`Ada`,`email`:`ada@x.com`}".

(** Scenario B: an event of another type. *)
Definition order_created : jsval :=
  event "CHECKOUT.ORDER.APPROVED" "25.00"
    "{`name`:`Ada`,`email`:`ada@x.com`}".

(** Scenario C: metadata that is not JSON. *)
Definition not_json : jsval :=
  event "PAYMENT.CAPTURE.COMPLETED" "25.00" "not-json".

(** A donor intent without a name. *)
Definition nameless : jsval :=
  event "PAYMENT.CAPTURE.COMPLETED" "25.00" "{`email`:`ada@x.com`}".

Definition ada_donation : donation :=
  {| capture :=
       Obj [(lit "id", Str (lit "5O190127TN364715T"));
            (lit "amount", Obj [(lit "currency_code", Str (lit "USD"));
                                (lit "value", Str (lit "25.00"))]);
            (lit "purchase_units",
             Arr [Obj [(lit "custom_id",
                        Str (lit "{`name`:`Ada`,`email`:`ada@x.com`}"))]])];
     amount_value := Str (lit "25.00");
     donor_name := Str (lit "Ada");
     donor_email := Str (lit "ada@x.com");
     donor_message := Undefined |}.

Definition nameless_donation : donation :=
  {| capture :=
       Obj [(lit "id", Str (lit "5O190127TN364715T"));
            (lit "amount", Obj [(lit "currency_code", Str (lit "USD"));
                                (lit "value", Str (lit "25.00"))]);
            (lit "purchase_units",
             Arr [Obj [(lit "custom_id",
                        Str (lit "{`email`:`ada@x.com`}"))]])];
     amount_value := Str (lit "25.00");
     donor_name := Undefined;
     donor_email := Str (lit "ada@x.com");
     donor_message := Undefined |}.

(** A response of the generative-text service with one candidate. *)
Definition generated (text : string) : response :=
  {| ok := true;
     status := Some 200%Z;
     json_body :=
       Ok (Obj [(lit "candidates",
                 Arr [Obj [(lit "content",
                            Obj [(lit "parts",
                                  Arr [Obj [(lit "text",
                                             Str (lit text))]])])]])]) |}.

(** The generator is unreachable; the mail transport accepts. *)
Definition generator_down : world :=
  {| GEMINI_API_KEY := Some (lit "key");
     EMAIL_FROM := Some (lit "thanks@hopespring.example");
     fetch_reply := fun _ _ => Raise (Rejection (lit "ECONNREFUSED"));
     sendMail_reply := fun _ => Ok tt |}.

(** The generator answers; the mail transport accepts. *)
Definition all_up (text : string) : world :=
  {| GEMINI_API_KEY := Some (lit "key");
     EMAIL_FROM := Some (lit "thanks@hopespring.example");
     fetch_reply := fun _ _ => Ok (generated text);
     sendMail_reply := fun _ => Ok tt |}.

(** Scenario D: the generator answers; the mail transport rejects every
    send. *)
Definition transport_down : world :=
  {| GEMINI_API_KEY := Some (lit "key");
     EMAIL_FROM := Some (lit "thanks@hopespring.example");
     fetch_reply :=
       fun _ _ => Ok (generated "Thank you, Ada! The children say hello.");
     sendMail_reply := fun _ => Raise (Rejection (lit "EAUTH")) |}.

(** The request that [generateThankYouMessage] issues for Ada, 25.00 and no
    message, with the key of the worlds above. *)
Definition ada_request_url : jsstring :=
  lit "https://generativelanguage.googleapis.com/v1beta/models/gemini-1.5-flash-latest:generateContent?key=key".

Definition ada_request : request_init :=
  {| method := lit "POST";
     headers := [(lit "Content-Type", lit "application/json")];
     body := Str (lit "{`contents`:[{`parts`:[{`text`:`Write a short, warm, and personal thank you message for a person named Ada who just donated $25.00. This donation is for our \`HopeSpring Foundation\` fundraiser, which provides school supplies for underprivileged children. Mention the impact on the children. Keep the tone grateful and heartfelt. Two sentences maximum.`}]}]}") |}.

(** A name only an adversarial client sends: an object with a member named
    [toString]. *)
Definition unprintable : jsval := Obj [(lit "toString", Null)].

End Scenario.

(** ** More vocabulary *)

Section RoundTripVocabulary.
Context {E : Engine}.

(** The text that follows a token ends a word: the end of the text, or a
    character that is not part of a word. *)
Definition terminated (rest : jsstring) : Prop :=
  match rest with
  | [] => True
  | c :: _ => is_word_unit c = false
  end.

(** The values that [JSON.stringify] writes in full and in place: no
    [undefined] anywhere, numbers that are finite and whose decimal notation
    reads back as the same number, and objects whose property names are
    distinct, as those of an object are, and are not array indices, which
    would be enumerated first. *)
#[warnings="-register-all"]
Inductive plain : jsval -> Prop :=
| plain_Null : plain Null
| plain_Bool b : plain (Bool b)
| plain_Num n :
    Number_isFinite n = true ->
    JSON_parse (Str (Number_toString n)) = Ok (Num n) ->
    plain (Num n)
| plain_Str s : plain (Str s)
| plain_Arr items : Forall plain items -> plain (Arr items)
| plain_Obj props :
    NoDup (map fst props) ->
    Forall (fun kv => array_index (fst kv) = None /\ plain (snd kv)) props ->
    plain (Obj props).

(** A parser state inside an array or an object, or after one was read. *)
Definition inside_container (st : parse_state) : Prop :=
  match st with
  | PValue stack => stack <> []
  | PDone v => forall n, v <> Num n
  | _ => True
  end.

(** [text] reads as [v]: its tokens take the parser from the place where a
    value is expected to the place where [v] is complete, and do not start
    with a closing bracket. *)
Definition reads_as (text : jsstring) (v : jsval) : Prop :=
  exists ts,
    lex LStart text = Some ts
    /\ (forall stack more,
          parse_tokens (PValue stack) (ts ++ more)
          = parse_tokens (complete v stack) more)
    /\ (forall stack more,
          parse_tokens (PArrStart stack) (ts ++ more)
          = parse_tokens (PValue (InArr [] :: stack)) (ts ++ more)).

(** The text of an element of an array and of a member of an object. *)
Definition element_text (x : jsval) : jsstring :=
  match SerializeJSONProperty x with
  | Some s => s
  | None => lit "null"
  end.

Definition member_text (kv : jsstring * jsval) : jsstring :=
  QuoteJSONString (fst kv) ++ lit ":" ++ element_text (snd kv).

End RoundTripVocabulary.

Section MoreVocabulary.
Context {E : Engine}.

(** The address of the generative-text service, before the key. *)
Definition generative_endpoint : jsstring :=
  lit "https://generativelanguage.googleapis.com/v1beta/models/gemini-1.5-flash-latest:generateContent?key=".

(** The text an entry of [process.env] gives in a template literal. *)
Definition env_text (entry : option jsstring) : jsstring :=
  match entry with
  | Some s => s
  | None => lit "undefined"
  end.

(** What the prompt says of the message of the donor: nothing when the
    message is falsy, its text otherwise. *)
Definition said (message : jsval) : outcome (option jsstring) :=
  if ToBoolean message then let! s := ToString message in Ok (Some s)
  else Ok None.

(** The prompt of lines 35 to 39, for the texts of the name, of the amount
    and of the message. *)
Definition prompt_text (name amount : jsstring) (message : option jsstring)
  : jsstring :=
  lit "Write a short, warm, and personal thank you message for a person named "
  ++ name ++ lit " who just donated $" ++ amount
  ++ lit ". This donation is for our `HopeSpring Foundation` fundraiser, which provides school supplies for underprivileged children. Mention the impact on the children."
  ++ match message with
     | Some m =>
         lit " The donor also left this kind message: `" ++ m
         ++ lit "`. Please subtly weave a reference to their message into your thank you."
     | None => []
     end
  ++ lit " Keep the tone grateful and heartfelt. Two sentences maximum.".

(** The document of line 45 around a prompt. *)
Definition prompt_document (prompt : jsstring) : jsval :=
  Obj [(lit "contents",
        Arr [Obj [(lit "parts", Arr [Obj [(lit "text", Str prompt)]])]])].

(** [value] stands in [html] between the texts [left] and [right]. *)
Definition between (left right html value : jsstring) : Prop :=
  exists before after, html = before ++ left ++ value ++ right ++ after.

End MoreVocabulary.

Section KeyVocabulary.
Context {E : Engine}.

(** An effect without what may carry the key of the service: the address of
    the request, and the error that the catch block of
    [generateThankYouMessage] prints on line 60, which is whatever the client
    rejected with and may quote that address. *)
Definition redact (e : effect) : effect :=
  match e with
  | Fetch _ init => Fetch [] init
  | ConsoleError line (Some _) =>
      if str_eqb line (lit "Error generating AI message:")
      then ConsoleError line None
      else e
  | _ => e
  end.

(** Two replies of the service that differ at most in the reasons with which
    the request or the decoding of the body is rejected. *)
Definition alike_body (a b : outcome jsval) : Prop :=
  match a, b with
  | Ok x, Ok y => x = y
  | Raise _, Raise _ => True
  | _, _ => False
  end.

Definition alike (a b : outcome response) : Prop :=
  match a, b with
  | Ok r, Ok r' =>
      ok r = ok r' /\ status r = status r'
      /\ alike_body (json_body r) (json_body r')
  | Raise _, Raise _ => True
  | _, _ => False
  end.

End KeyVocabulary.

(** The service is unreachable and the client quotes the address of the
    request in its error, as the one of node-fetch does. *)
Module KeyScenario.
Import IntegerEngine.

Definition quoting (key : string) : world :=
  {| GEMINI_API_KEY := Some (lit key);
     EMAIL_FROM := Some (lit "thanks@hopespring.example");
     fetch_reply :=
       fun url _ =>
         Raise (Rejection (lit "request to " ++ url
                           ++ lit " failed, reason: connect ECONNREFUSED"));
     sendMail_reply := fun _ => Ok tt |}.

End KeyScenario.

(** ** The order endpoints of [src/server.js]

    The handlers registered with [app.post('/api/paypal/create-order', ...)]
    and [app.post('/api/paypal/capture-order', ...)]. Their effects are the
    calls of the PayPal client and the JSON responses of Express, so they
    have a trace type of their own; statements are sequenced as above. A
    request of the SDK is represented by what the code puts in it, and a
    reply of the client by the data of its HTTP response, a value that
    [res.json] can serialize. Express does not wait for the promise of a
    handler: when it is rejected, no response is sent. *)

Module Api.
Section Source.
Context {E : Engine}.

(** A chain of property reads, [v.a.b.c]. *)
Fixpoint Get_path (v : jsval) (path : list jsstring) : outcome jsval :=
  match path with
  | [] => Ok v
  | key :: path' => let! x := Get v key in Get_path x path'
  end.

(** [Number.prototype.toFixed(digits)], a conversion of numbers to decimal
    notation like those of [Engine]. *)
Variable Number_toFixed : number -> N -> jsstring.

(** The method call [v.toFixed(digits)]. Only a number inherits a callable
    [toFixed]. *)
Definition call_toFixed (v : jsval) (digits : N) : outcome jsval :=
  match v with
  | Num n => Ok (Str (Number_toFixed n digits))
  | _ => Raise TypeError
  end.

(** The two requests the code builds with the PayPal SDK: what the code puts
    in them. *)
Inductive paypal_request : Type :=
| OrdersCreateRequest (prefer : jsstring) (requestBody : jsval)
| OrdersCaptureRequest (orderID : jsval) (requestBody : jsval).

Inductive effect : Type :=
| ConsoleError (line : jsstring) (err : exn)
| Execute (request : paypal_request)
| Json (code : N) (body : jsval).

(** The PayPal side: how [client.execute] settles, and whether the
    constructor of the capture request, which writes the order id into the
    path of the request, accepts the id or throws. *)
Record world : Type := {
  execute_reply : paypal_request -> outcome jsval;
  capture_request_reply : jsval -> outcome unit
}.

Definition promise (A : Type) : Type := (list effect * outcome A)%type.
Definition M (R A : Type) : Type := (list effect * completion R A)%type.

Definition ret {R A} (a : A) : M R A := ([], Normal a).

Definition bind {R A B} (m : M R A) (k : A -> M R B) : M R B :=
  match m with
  | (t, Normal a) => let (t', c) := k a in (t ++ t', c)
  | (t, Return r) => (t, Return r)
  | (t, Throw e) => (t, Throw e)
  end.

Definition eval {R A} (o : outcome A) : M R A :=
  match o with
  | Ok a => ([], Normal a)
  | Raise e => ([], Throw e)
  end.

Definition await {R A} (p : promise A) : M R A :=
  match p with
  | (t, Ok a) => (t, Normal a)
  | (t, Raise e) => (t, Throw e)
  end.

Definition try_catch {R A} (body : M R A) (handler : exn -> M R A) : M R A :=
  match body with
  | (t, Throw e) => let (t', c) := handler e in (t ++ t', c)
  | other => other
  end.

Definition async_function {R} (falls_off : R) (body : M R unit) : promise R :=
  match body with
  | (t, Normal _) => (t, Ok falls_off)
  | (t, Return r) => (t, Ok r)
  | (t, Throw e) => (t, Raise e)
  end.

Definition emit {R} (e : effect) : M R unit := ([e], Normal tt).

(** [console.error(line, err)] *)
Definition console_error {R} (line : jsstring) (err : exn) : M R unit :=
  emit (ConsoleError line err).

(** [client.execute(request)] *)
Definition execute (w : world) (request : paypal_request) : promise jsval :=
  ([Execute request], execute_reply w request).

(** [res.json(body)], with status 200, and [res.status(code).json(body)] *)
Definition json {R} (body : jsval) : M R unit := emit (Json 200 body).
Definition status_json {R} (code : N) (body : jsval) : M R unit :=
  emit (Json code body).

Local Notation "x <- c1 ;; c2" := (bind c1 (fun x => c2))
  (at level 61, c1 at next level, right associativity).
Local Notation "c1 ;; c2" := (bind c1 (fun _ => c2))
  (at level 61, right associativity).

Variable w : world.

(** The handler of [app.post('/api/paypal/create-order', ...)], lines 70 to
    94, applied to [req.body]. *)
Definition create_order (body : jsval) : promise unit :=
  async_function tt
    (amount <- eval (Get body (lit "amount")) ;;
     donorInfo <- eval (Get body (lit "donorInfo")) ;;
     value <- eval (call_toFixed amount 2) ;;
     let request :=
       OrdersCreateRequest (lit "return=representation")
         (Obj [(lit "intent", Str (lit "CAPTURE"));
               (lit "purchase_units",
                Arr [Obj [(lit "amount",
                           Obj [(lit "currency_code", Str (lit "USD"));
                                (lit "value", value)]);
                          (lit "custom_id", JSON_stringify donorInfo)]])]) in
     try_catch
       (order <- await (execute w request) ;;
        id <- eval (let! result := Get order (lit "result") in
                    Get result (lit "id")) ;;
        json (Obj [(lit "orderID", id)]))
       (fun err =>
          console_error (lit "Failed to create order:") err ;;
          status_json 500
            (Obj [(lit "error", Str (lit "Failed to create order."))]))).

(** The handler of [app.post('/api/paypal/capture-order', ...)], lines 98 to
    111, applied to [req.body]. *)
Definition capture_order (body : jsval) : promise unit :=
  async_function tt
    (orderID <- eval (Get body (lit "orderID")) ;;
     eval (capture_request_reply w orderID) ;;
     let request := OrdersCaptureRequest orderID (Obj []) in
     try_catch
       (capture <- await (execute w request) ;;
        json (Obj [(lit "status", Str (lit "success"));
                   (lit "capture", capture)]))
       (fun err =>
          console_error (lit "Failed to capture order:") err ;;
          status_json 500
            (Obj [(lit "error", Str (lit "Failed to capture order."))]))).

(** What a trace of these handlers contains. *)
Definition json_responses (t : list effect) : list (N * jsval) :=
  flat_map (fun e => match e with Json c b => [(c, b)] | _ => [] end) t.

Definition executed (t : list effect) : list paypal_request :=
  flat_map (fun e => match e with Execute r => [r] | _ => [] end) t.

(** The [custom_id] of the first purchase unit of an order, where the
    handler of the webhook looks for the donor intent. *)
Definition custom_id_of (request : paypal_request) : outcome jsval :=
  match request with
  | OrdersCreateRequest _ requestBody =>
      Get_path requestBody [lit "purchase_units"; lit "0"; lit "custom_id"]
  | OrdersCaptureRequest _ _ => Ok Undefined
  end.

(** How the handler answers the reply of PayPal to the order it created. *)
Definition created (reply : outcome jsval) : N * jsval :=
  match (let! order := reply in
         let! result := Get order (lit "result") in
         Get result (lit "id")) with
  | Ok id => (200%N, Obj [(lit "orderID", id)])
  | Raise _ =>
      (500%N, Obj [(lit "error", Str (lit "Failed to create order."))])
  end.

(** How the handler answers the reply of PayPal to the capture. *)
Definition captured (reply : outcome jsval) : N * jsval :=
  match reply with
  | Ok capture =>
      (200%N, Obj [(lit "status", Str (lit "success"));
                   (lit "capture", capture)])
  | Raise _ =>
      (500%N, Obj [(lit "error", Str (lit "Failed to capture order."))])
  end.

End Source.
End Api.

(** ** A donation from the order to the webhook *)

Module OrderScenario.
Import IntegerEngine.

(** [toFixed] on the numbers of the engine above: the integer, then the
    point and as many zeros as digits are asked for. *)
Definition toFixed (x : @number engine) (digits : N) : jsstring :=
  match x with
  | None => lit "NaN"
  | Some _ =>
      to_string x
      ++ (if N.eqb digits 0 then []
          else 46%N :: repeat 48%N (N.to_nat digits))
  end.

(** The donor info the page sends with the order. *)
Definition donor : jsval :=
  Obj [(lit "name", Str (lit "Ada"));
       (lit "email", Str (lit "ada@x.com"));
       (lit "message", Str (lit "Keep going!"))].

(** The body of a request to create an order of 25. *)
Definition order_body : jsval :=
  Obj [(lit "amount", Num (Some 25%Z)); (lit "donorInfo", donor)].

(** The same, with the amount as the text of a form field. *)
Definition form_body : jsval :=
  Obj [(lit "amount", Str (lit "25")); (lit "donorInfo", donor)].

Definition capture_body : jsval :=
  Obj [(lit "orderID", Str (lit "5O190127TN364715T"))].

(** PayPal creates and captures the order. *)
Definition paypal_up : Api.world :=
  {| Api.execute_reply :=
       fun _ => Ok (Obj [(lit "result",
                          Obj [(lit "id", Str (lit "5O190127TN364715T"))])]);
     Api.capture_request_reply := fun _ => Ok tt |}.

(** The event PayPal sends once the order above is captured. *)
Definition completed : jsval :=
  Obj [(lit "event_type", Str (lit "PAYMENT.CAPTURE.COMPLETED"));
       (lit "resource",
        Obj [(lit "id", Str (lit "5O190127TN364715T"));
             (lit "amount", Obj [(lit "currency_code", Str (lit "USD"));
                                 (lit "value", Str (lit "25.00"))]);
             (lit "purchase_units",
              Arr [Obj [(lit "custom_id", JSON_stringify donor)]])])].

(** An event whose donor intent has an object with a member named
    [toString] for name. *)
Definition adversarial : jsval :=
  Scenario.event "PAYMENT.CAPTURE.COMPLETED" "25.00"
    "{`name`:{`toString`:null},`email`:`ada@x.com`}".

Definition adversarial_donation : donation :=
  {| capture :=
       Obj [(lit "id", Str (lit "5O190127TN364715T"));
            (lit "amount", Obj [(lit "currency_code", Str (lit "USD"));
                                (lit "value", Str (lit "25.00"))]);
            (lit "purchase_units",
             Arr [Obj [(lit "custom_id",
                        Str (lit "{`name`:{`toString`:null},`email`:`ada@x.com`}"))]])];
     amount_value := Str (lit "25.00");
     donor_name := Scenario.unprintable;
     donor_email := Str (lit "ada@x.com");
     donor_message := Undefined |}.

(** A value with a string, a number, a boolean, [null], an array and an
    object. *)
Definition sample : jsval :=
  Obj [(lit "name", Str (lit "Ada `the first` \ Lovelace"));
       (lit "amount", Num (Some 25%Z));
       (lit "anonymous", Bool false);
       (lit "company", Null);
       (lit "tags", Arr [Str [9%N; 55357%N; 56832%N; 55357%N]; Arr []; Obj []])].

End OrderScenario.

Unset Implicit Arguments.

(** * Facts about the runtime *)

Lemma str_eqb_refl (s : jsstring) : str_eqb s s = true.
Proof.
  induction s as [|c s IH]; cbn; [reflexivity|].
  now rewrite N.eqb_refl, IH.
Qed.

Lemma str_eqb_eq (a b : jsstring) : str_eqb a b = true -> a = b.
Proof.
  revert b; induction a as [|x a IH]; intros [|y b]; cbn; try discriminate.
  - reflexivity.
  - intros H. apply andb_prop in H as [Hx Hab].
    apply N.eqb_eq in Hx. now rewrite Hx, (IH b Hab).
Qed.

(** [trim] leaves nothing exactly when the string is blank. *)
Lemma trimStart_nil (s : jsstring) :
  trimStart s = [] <-> forallb is_white_space s = true.
Proof.
  induction s as [|c s IH]; cbn; [tauto|].
  destruct (is_white_space c); cbn; [exact IH|].
  split; discriminate.
Qed.

Lemma trimStart_blank (s : jsstring) :
  forallb is_white_space (trimStart s) = true -> trimStart s = [].
Proof.
  induction s as [|c s IH]; cbn; [reflexivity|].
  destruct (is_white_space c) eqn:Hc; [exact IH|].
  cbn. rewrite Hc. discriminate.
Qed.

Lemma forallb_rev {A} (f : A -> bool) (l : list A) :
  forallb f (rev l) = forallb f l.
Proof.
  induction l as [|x l IH]; [reflexivity|].
  cbn. rewrite forallb_app, IH. cbn. rewrite andb_true_r. apply andb_comm.
Qed.

Lemma trim_nil (s : jsstring) :
  trim s = [] <-> forallb is_white_space s = true.
Proof.
  unfold trim, trimEnd. split.
  - intros H. apply (f_equal (@rev _)) in H. rewrite rev_involutive in H.
    cbn in H. apply trimStart_nil in H. rewrite forallb_rev in H.
    now apply trimStart_nil, trimStart_blank.
  - intros H. apply trimStart_nil in H. now rewrite H.
Qed.

(** ** [trim] *)


Lemma trimStart_head s :
  trimStart s = []
  \/ exists c s', trimStart s = c :: s' /\ is_white_space c = false.
Proof.
  induction s as [|c s IH]; [now left|].
  cbn. destruct (is_white_space c) eqn:Hc; [exact IH|].
  right. now exists c, s.
Qed.



(** What [trimStart] removes is white space. *)
Lemma trimStart_suffix s :
  exists pre, s = pre ++ trimStart s /\ forallb is_white_space pre = true.
Proof.
  induction s as [|x s (pre & IH & Hpre)]; [now exists []|].
  cbn. destruct (is_white_space x) eqn:Hx.
  - exists (x :: pre). cbn. rewrite Hx, Hpre. now rewrite <- IH.
  - now exists [].
Qed.

(** What [trim] removes is white space, before and after. *)
Lemma trim_around s :
  exists leading trailing,
    s = leading ++ trim s ++ trailing
    /\ forallb is_white_space leading = true
    /\ forallb is_white_space trailing = true.
Proof.
  unfold trim, trimEnd.
  destruct (trimStart_suffix s) as (leading & Hs & Hleading).
  destruct (trimStart_suffix (rev (trimStart s))) as (pre & Hrev & Hpre).
  exists leading, (rev pre). repeat split; [|assumption|].
  - rewrite <- rev_app_distr, <- Hrev, rev_involutive. exact Hs.
  - now rewrite forallb_rev.
Qed.

(** What [trim] returns is empty, or starts and ends with characters that
    are not white space. *)
Lemma trim_shape s :
  trim s = []
  \/ (exists c, trim s = [c] /\ is_white_space c = false)
  \/ (exists c m d, trim s = c :: m ++ [d]
                    /\ is_white_space c = false /\ is_white_space d = false).
Proof.
  unfold trim, trimEnd.
  destruct (trimStart_head s) as [H | (c & s' & H & Hc)].
  { left. now rewrite H. }
  rewrite H. right.
  destruct (trimStart_head (rev (c :: s'))) as [H' | (d & r & H' & Hd)].
  { apply trimStart_nil in H'. rewrite forallb_rev in H'. cbn in H'.
    now rewrite Hc in H'. }
  destruct (trimStart_suffix (rev (c :: s'))) as (pre & Hpre & _).
  rewrite H' in Hpre |- *.
  apply (f_equal (@rev _)) in Hpre.
  rewrite rev_involutive, rev_app_distr in Hpre. cbn [rev] in Hpre |- *.
  destruct (rev r) as [|c' m].
  - left. cbn [app] in Hpre |- *. injection Hpre as -> _. now exists d.
  - right. cbn [app] in Hpre |- *. injection Hpre as -> _.
    now exists c', m, d.
Qed.


(** [is_white_space] decides the white space of ECMAScript. *)
Lemma is_white_space_iff c : is_white_space c = true <-> white_space_unit c.
Proof.
  unfold is_white_space, white_space_unit.
  rewrite !orb_true_iff, !andb_true_iff, !N.leb_le, !N.eqb_eq. lia.
Qed.

Lemma white_space_units s :
  forallb is_white_space s = true -> Forall white_space_unit s.
Proof.
  intros H. apply Forall_forall. intros c Hc. apply is_white_space_iff.
  exact (proj1 (forallb_forall _ _) H c Hc).
Qed.

Lemma not_white_space c : is_white_space c = false -> ~ white_space_unit c.
Proof. intros H Hc. apply is_white_space_iff in Hc. congruence. Qed.

Lemma trim_bare s : bare (trim s).
Proof.
  destruct (trim_shape s) as [-> | [(c & -> & Hc) | (c & m & d & -> & Hc & Hd)]].
  - split; [discriminate|]. intros rest c H. now destruct rest.
  - split.
    + intros c' rest [= <- _]. now apply not_white_space.
    + intros rest c' H. apply (app_inj_tail []) in H as [_ <-].
      now apply not_white_space.
  - split.
    + intros c' rest [= <- _]. now apply not_white_space.
    + intros rest c' H. apply (app_inj_tail (c :: m)) in H as [_ <-].
      now apply not_white_space.
Qed.

(** [trim] strips the white space around a string, all of it and nothing
    else. *)
Lemma trim_stripped s : stripped s (trim s).
Proof.
  destruct (trim_around s) as (leading & trailing & Hs & Hl & Ht).
  exists leading, trailing.
  repeat split; try (apply white_space_units; assumption);
    try exact Hs; apply trim_bare.
Qed.

Lemma white_space_prefix l : forall l' x x',
  Forall white_space_unit l -> Forall white_space_unit l' ->
  l ++ x = l' ++ x' ->
  (exists c r, x = c :: r /\ ~ white_space_unit c) ->
  (exists c r, x' = c :: r /\ ~ white_space_unit c) ->
  l = l' /\ x = x'.
Proof.
  induction l as [|a l IH]; intros [|b l'] x x' Hl Hl' H
    (c & r & -> & Hc) (c' & r' & -> & Hc'); cbn [app] in H.
  - now split.
  - exfalso. injection H as -> _. inversion Hl'. contradiction.
  - exfalso. injection H as <- _. inversion Hl. contradiction.
  - injection H as <- H. inversion Hl; inversion Hl'; subst.
    destruct (IH l' (c :: r) (c' :: r')) as [-> Hx]; eauto.
Qed.

Lemma bare_head s t :
  bare s -> s <> [] -> exists c r, s ++ t = c :: r /\ ~ white_space_unit c.
Proof.
  intros [Hs _] Hne. destruct s as [|c r]; [congruence|].
  exists c, (r ++ t). split; [reflexivity | now apply (Hs c r)].
Qed.

Lemma bare_last s t :
  bare s -> s <> [] ->
  exists c r, rev s ++ t = c :: r /\ ~ white_space_unit c.
Proof.
  intros [_ Hs] Hne.
  destruct (exists_last Hne) as (r & c & ->).
  rewrite rev_app_distr. exists c, (rev r ++ t).
  split; [reflexivity | now apply (Hs r c)].
Qed.

(** Stripping has one result. *)
Lemma stripped_unique text s s' : stripped text s -> stripped text s' -> s = s'.
Proof.
  assert (Hblank : forall l t s0,
            Forall white_space_unit l -> Forall white_space_unit t ->
            bare s0 -> text = l ++ [] ++ t ->
            forall l' t', text = l' ++ s0 ++ t' -> s0 = []).
  { intros l t s0 Hl Ht Hs0 Htext l' t' Htext'.
    destruct s0 as [|c r]; [reflexivity|]. exfalso.
    apply (proj1 Hs0 c r eq_refl).
    assert (Hin : In c text) by (rewrite Htext'; apply in_or_app; right; now left).
    rewrite Htext in Hin. cbn [app] in Hin.
    apply in_app_or in Hin as [Hin | Hin];
      [rewrite Forall_forall in Hl; now apply Hl
      |rewrite Forall_forall in Ht; now apply Ht]. }
  intros (l & t & Htext & Hl & Ht & Hs) (l' & t' & Htext' & Hl' & Ht' & Hs').
  destruct s as [|c r].
  { symmetry. exact (Hblank l t s' Hl Ht Hs' Htext l' t' Htext'). }
  destruct s' as [|c' r'].
  { exact (Hblank l' t' (c :: r) Hl' Ht' Hs Htext' l t Htext). }
  destruct (white_space_prefix l l' ((c :: r) ++ t) ((c' :: r') ++ t') Hl Hl')
    as [_ Hrest].
  { now rewrite <- Htext. }
  { now apply bare_head. }
  { now apply bare_head. }
  apply (f_equal (@rev _)) in Hrest. rewrite !rev_app_distr in Hrest.
  destruct (white_space_prefix (rev t) (rev t') (rev (c :: r)) (rev (c' :: r')))
    as [_ Hs0]; try assumption.
  { now apply Forall_rev. }
  { now apply Forall_rev. }
  { rewrite <- (app_nil_r (rev (c :: r))). now apply bare_last. }
  { rewrite <- (app_nil_r (rev (c' :: r'))). now apply bare_last. }
  apply (f_equal (@rev _)) in Hs0. now rewrite !rev_involutive in Hs0.
Qed.

(** [JSON.parse] and [JSON.stringify] on a few texts. *)
Section Examples.
Import IntegerEngine.

Example parse_donor_intent :
  parse_text (E := IntegerEngine.engine)
    (lit "{`name`:`Ada`,`email`:`ada@x.com`}")
  = Ok (Obj [(lit "name", Str (lit "Ada"));
             (lit "email", Str (lit "ada@x.com"))]).
Proof. reflexivity. Qed.

Example parse_not_json :
  parse_text (E := IntegerEngine.engine) (lit "not-json") = Raise SyntaxError.
Proof. reflexivity. Qed.

Example parse_nested :
  parse_text (E := IntegerEngine.engine)
    (lit " [1, -2, true, null, {`a`: {`b`: [0]}, `c`: [], `a`: `last`}] ")
  = Ok (Arr [Num (Some 1%Z); Num (Some (-2)%Z); Bool true; Null;
             Obj [(lit "a", Str (lit "last")); (lit "c", Arr [])]]
        : @jsval IntegerEngine.engine).
Proof. reflexivity. Qed.

Example parse_escapes :
  parse_text (E := IntegerEngine.engine) (lit "`x\ny\u0041\``")
  = Ok (Str [120; 10; 121; 65; 34]%N).
Proof. reflexivity. Qed.

Example parse_trailing_comma :
  parse_text (E := IntegerEngine.engine) (lit "[1,]") = Raise SyntaxError
  /\ parse_text (E := IntegerEngine.engine) (lit "{`a`:1,}")
     = Raise SyntaxError.
Proof. split; reflexivity. Qed.

Example parse_leading_zero :
  parse_text (E := IntegerEngine.engine) (lit "01") = Raise SyntaxError.
Proof. reflexivity. Qed.

Example stringify_quotes :
  JSON_stringify (E := IntegerEngine.engine)
    (Obj [(lit "text", Str (lit "say `hi`")); (lit "skipped", Undefined);
          (lit "list", Arr [Undefined; Null; Bool false])])
  = Str (lit "{`text`:`say \`hi\``,`list`:[null,null,false]}").
Proof. reflexivity. Qed.

Example ToString_array :
  ToString (E := IntegerEngine.engine)
    (Arr [Num (Some 1%Z); Null; Arr [Str (lit "a"); Undefined]; Obj []]
     : @jsval IntegerEngine.engine)
  = Ok (lit "1,,a,,[object Object]").
Proof. reflexivity. Qed.

End Examples.

Section Facts.
Context {E : Engine}.

Lemma strict_equals_string_true (v : jsval) (s : jsstring) :
  strict_equals_string v s = true <-> v = Str s.
Proof.
  split.
  - destruct v; cbn; try discriminate.
    intros H. now rewrite (str_eqb_eq _ _ H).
  - intros ->. apply str_eqb_refl.
Qed.

Lemma obind_Ok {A B} (c : outcome A) (k : A -> outcome B) (b : B) :
  obind c k = Ok b -> exists a, c = Ok a /\ k a = Ok b.
Proof. destruct c; cbn; [eauto | discriminate]. Qed.

Lemma call_trim_Ok (v r : jsval) :
  call_trim v = Ok r -> exists s, v = Str s /\ r = Str (trim s).
Proof.
  destruct v; cbn; try discriminate.
  intros [= <-]. eauto.
Qed.

(** Reading a property throws exactly on [undefined] and [null]. *)
Lemma Get_defined (v : jsval) (key : jsstring) :
  is_nullish v = false -> exists x, Get v key = Ok x.
Proof.
  destruct v; cbn; try discriminate; intros _; eauto.
  - destruct (str_eqb key _); eauto.
    destruct (array_index key); eauto. destruct (nth_item s n); eauto.
  - destruct (str_eqb key _); eauto.
    destruct (array_index key); eauto. destruct (nth_item items n); eauto.
  - destruct (own_property props key); eauto.
Qed.

Lemma Get_nullish (v : jsval) (key : jsstring) :
  is_nullish v = true -> Get v key = Raise TypeError.
Proof. destruct v; cbn; try discriminate; reflexivity. Qed.

Lemma Get_first (x : jsval) (rest : list jsval) :
  Get (Arr (x :: rest)) (lit "0") = Ok x.
Proof. reflexivity. Qed.

Lemma Get_length (l : list jsval) :
  Get (Arr l) (lit "length") = Ok (Num (Number_of_nat (List.length l))).
Proof. reflexivity. Qed.

(** [JSON.parse(undefined)] throws: the text [undefined] is not JSON. *)
Lemma JSON_parse_undefined : JSON_parse Undefined = Raise SyntaxError.
Proof. reflexivity. Qed.

(** Strings, [undefined] and the entries of the environment are printable. *)
Lemma printable_Str (s : jsstring) : printable (Str s).
Proof. now exists s. Qed.

Lemma printable_Undefined : printable Undefined.
Proof. now exists (lit "undefined"). Qed.

(** A donation whose amount, name and email are strings, and whose capture
    has a string for id, can be rendered. *)
Lemma strings_renderable (d : donation) (amount name email id : jsstring) :
  amount_value d = Str amount -> donor_name d = Str name ->
  donor_email d = Str email -> Get (capture d) (lit "id") = Ok (Str id) ->
  renderable d.
Proof.
  intros Hamount Hname Hemail Hid. unfold renderable.
  rewrite Hamount, Hname, Hemail. repeat split; try apply printable_Str.
  exists (Str id). split; [exact Hid | apply printable_Str].
Qed.

Lemma ToString_env (entry : option jsstring) :
  ToString (env entry)
  = Ok (match entry with Some s => s | None => lit "undefined" end).
Proof. now destruct entry. Qed.

Lemma Fetch_inj (u u' : jsstring) (i i' : request_init) :
  Fetch u i = Fetch u' i' -> u = u' /\ i = i'.
Proof. intros [= -> ->]. now split. Qed.

(** ** Traces *)

Lemma mails_app (t u : list effect) : mails (t ++ u) = mails t ++ mails u.
Proof. apply flat_map_app. Qed.

Lemma responses_app (t u : list effect) :
  responses (t ++ u) = responses t ++ responses u.
Proof. apply flat_map_app. Qed.

Lemma fetches_app (t u : list effect) :
  fetches (t ++ u) = fetches t ++ fetches u.
Proof. apply flat_map_app. Qed.

Lemma processing_failed_app (t u : list effect) :
  processing_failed (t ++ u) = processing_failed t || processing_failed u.
Proof. apply existsb_app. Qed.

Lemma responses_cons (e : effect) (t : list effect) :
  responses (e :: t) = responses [e] ++ responses t.
Proof. exact (responses_app [e] t). Qed.

Lemma mails_cons (e : effect) (t : list effect) :
  mails (e :: t) = mails [e] ++ mails t.
Proof. exact (mails_app [e] t). Qed.

Lemma fetches_cons (e : effect) (t : list effect) :
  fetches (e :: t) = fetches [e] ++ fetches t.
Proof. exact (fetches_app [e] t). Qed.

Lemma processing_failed_cons (e : effect) (t : list effect) :
  processing_failed (e :: t) = processing_failed [e] || processing_failed t.
Proof. exact (processing_failed_app [e] t). Qed.

Lemma In_mails (m : mail_options) (t : list effect) :
  In m (mails t) -> In (SendMail m) t.
Proof.
  induction t as [|e t IH]; [intros []|].
  change (e :: t) with ([e] ++ t). rewrite mails_app, in_app_iff. cbn [app].
  intros [H | H]; [left | right; exact (IH H)].
  destruct e; cbn in H; try contradiction.
  destruct H as [-> | []]. reflexivity.
Qed.

Lemma harmless_unanswered (e : effect) : harmless e -> unanswered e.
Proof. destruct e; cbn; tauto. Qed.

Lemma unanswered_trace (t : list effect) :
  Forall unanswered t -> responses t = [] /\ processing_failed t = false.
Proof.
  induction 1 as [|e t He _ [IHr IHp]]; [split; reflexivity|].
  change (e :: t) with ([e] ++ t).
  rewrite responses_app, processing_failed_app, IHr, IHp.
  destruct e; cbn in He |- *; try contradiction; rewrite ?He; split; reflexivity.
Qed.

Lemma harmless_trace (t : list effect) :
  Forall harmless t ->
  mails t = [] /\ responses t = [] /\ processing_failed t = false.
Proof.
  intros H. split.
  - induction H as [|e t He _ IH]; [reflexivity|].
    change (e :: t) with ([e] ++ t). rewrite mails_app, IH.
    destruct e; cbn in He |- *; try contradiction; reflexivity.
  - apply unanswered_trace. revert H. apply Forall_impl, harmless_unanswered.
Qed.

(** ** The acknowledgement inside the HTML *)

Lemma embeds_later (x rest acknowledgement : jsstring) :
  embeds rest acknowledgement -> embeds (x ++ rest) acknowledgement.
Proof.
  intros (before & after & ->). exists (x ++ before), after.
  now rewrite <- app_assoc.
Qed.

Lemma embeds_here (x y acknowledgement : jsstring) :
  skipn (List.length x - List.length before_acknowledgement) x
  = before_acknowledgement ->
  firstn (List.length after_acknowledgement) y = after_acknowledgement ->
  embeds (x ++ acknowledgement ++ y) acknowledgement.
Proof.
  intros Hx Hy.
  exists (firstn (List.length x - List.length before_acknowledgement) x),
         (skipn (List.length after_acknowledgement) y).
  rewrite <- (firstn_skipn (List.length x - List.length before_acknowledgement) x)
    at 1.
  rewrite <- (firstn_skipn (List.length after_acknowledgement) y) at 1.
  rewrite Hx, Hy, <- !app_assoc. reflexivity.
Qed.

End Facts.

(** * Invariants of the effects of a computation *)

Section Invariants.
Context {E : Engine}.
Variable P : effect -> Prop.

Lemma traced_ret {R A} (a : A) : traced P (ret a : M R A).
Proof. constructor. Qed.

Lemma traced_return {R A} (r : R) : traced P (return_ r : M R A).
Proof. constructor. Qed.

Lemma traced_throw {R A} (e : exn) : traced P (throw e : M R A).
Proof. constructor. Qed.

Lemma traced_eval {R A} (o : outcome A) : traced P (eval o : M R A).
Proof. destruct o; constructor. Qed.

Lemma traced_emit {R} (e : effect) : P e -> traced P (emit e : M R unit).
Proof. intros H. repeat constructor. exact H. Qed.

Lemma traced_await {R A} (p : promise A) :
  ptraced P p -> traced P (await p : M R A).
Proof. destruct p as [t [a|e]]; exact (fun H => H). Qed.

Lemma traced_bind {R A B} (m : M R A) (k : A -> M R B) :
  traced P m -> (forall a, snd m = Normal a -> traced P (k a)) ->
  traced P (bind m k).
Proof.
  unfold traced. destruct m as [t [a|r|e]]; cbn; intros Ht Hk; try exact Ht.
  specialize (Hk a eq_refl). destruct (k a) as [t' c]. cbn in *.
  apply Forall_app. now split.
Qed.

Lemma traced_try_catch {R A} (body : M R A) (handler : exn -> M R A) :
  traced P body -> (forall e, traced P (handler e)) ->
  traced P (try_catch body handler).
Proof.
  unfold traced. destruct body as [t [a|r|e]]; cbn; intros Ht Hh; try exact Ht.
  specialize (Hh e). destruct (handler e) as [t' c]. cbn in *.
  apply Forall_app. now split.
Qed.

Lemma ptraced_async_function {R} (falls_off : R) (body : M R unit) :
  traced P body -> ptraced P (async_function falls_off body).
Proof. destruct body as [t [a|r|e]]; exact (fun H => H). Qed.

Lemma ptraced_fetch (w : world) url init :
  P (Fetch url init) -> ptraced P (fetch w url init).
Proof. intros H. repeat constructor. exact H. Qed.

Lemma ptraced_json (r : response) : ptraced P (json r).
Proof. constructor. Qed.

Lemma ptraced_sendMail (w : world) m :
  P (SendMail m) -> ptraced P (sendMail w m).
Proof. intros H. repeat constructor. exact H. Qed.

Lemma eval_Normal {R A} (o : outcome A) (a : A) :
  snd (eval o : M R A) = Normal a -> o = Ok a.
Proof. destruct o; cbn; intros [=]; congruence. Qed.

End Invariants.

Section NoReturn.
Context {E : Engine}.







End NoReturn.

(** * Tactics *)

(** One syntax-directed step of a proof that every effect satisfies [P]. *)
Ltac traced_step :=
  lazymatch goal with
  | |- traced _ (bind _ _) => apply traced_bind; [| intros ? ?]
  | |- traced _ (try_catch _ _) => apply traced_try_catch; [| intros ?]
  | |- traced _ (eval _) => apply traced_eval
  | |- traced _ (ret _) => apply traced_ret
  | |- traced _ (return_ _) => apply traced_return
  | |- traced _ (throw _) => apply traced_throw
  | |- traced _ (await _) => apply traced_await
  | |- traced _ (if ?b then _ else _) => destruct b
  | |- traced _ (let _ := _ in _) => cbv zeta
  | |- traced _ (console_log _) => apply traced_emit
  | |- traced _ (console_error _ _) => apply traced_emit
  | |- traced _ (sendStatus _) => apply traced_emit
  | |- ptraced _ (fetch _ _ _) => apply ptraced_fetch
  | |- ptraced _ (json _) => apply ptraced_json
  | |- ptraced _ (sendMail _ _) => apply ptraced_sendMail
  | |- ptraced _ (async_function _ _) => apply ptraced_async_function
  end.


(** Running a computation as far as its arguments allow. *)
Ltac run :=
  cbn [bind eval await try_catch async_function ret return_ throw emit
       console_log console_error sendStatus sendMail fetch json fst snd app
       obind template ToString negb].

(** The scrutinee on which the evaluation of a term is stuck. *)
Ltac stuck t :=
  lazymatch t with
  | match ?x with _ => _ end => stuck x
  | bind ?m _ => stuck m
  | try_catch ?m _ => stuck m
  | async_function _ ?m => stuck m
  | eval ?o => stuck o
  | await ?p => stuck p
  | obind ?c _ => stuck c
  | negb ?b => stuck b
  | fst ?p => stuck p
  | snd ?p => stuck p
  | _ => t
  end.

(** One step of symbolic execution of the async function in the goal: the
    stuck scrutinee is rewritten with a hypothesis that gives its value, or
    else both of its outcomes are considered. *)
Ltac step :=
  lazymatch goal with
  | |- context [async_function _ ?m] =>
      let s := stuck m in
      first [ match goal with H : s = _ |- _ => rewrite H end
            | destruct s eqn:? ];
      run
  end.

Ltac not_nil t := lazymatch t with [] => fail | _ => idtac end.

(** Splitting a trace into its effects. *)
Ltac trace_split :=
  repeat first
    [ rewrite responses_app | rewrite mails_app | rewrite fetches_app
    | rewrite processing_failed_app
    | match goal with
      | |- context [responses (?e :: ?t)] =>
          not_nil t; rewrite (responses_cons e t)
      | |- context [mails (?e :: ?t)] =>
          not_nil t; rewrite (mails_cons e t)
      | |- context [fetches (?e :: ?t)] =>
          not_nil t; rewrite (fetches_cons e t)
      | |- context [processing_failed (?e :: ?t)] =>
          not_nil t; rewrite (processing_failed_cons e t)
      end ].

Ltac trace_compute :=
  cbn [responses mails fetches flat_map processing_failed existsb app orb];
  rewrite ?str_eqb_refl.


(** * [generateThankYouMessage] *)

Section Generator.
Context {E : Engine} (w : world).

(** Every effect of the generator is harmless: it sends no mail and no HTTP
    response. *)
Lemma generateThankYouMessage_harmless name amount message :
  ptraced harmless (Server.generateThankYouMessage w name amount message).
Proof.
  unfold Server.generateThankYouMessage.
  repeat traced_step; try exact I; try reflexivity.
  match goal with H : snd (eval (template _)) = Normal _ |- _ =>
    apply eval_Normal in H; cbn [template obind ToString] in H;
    injection H as <- end.
  reflexivity.
Qed.

Lemma fallback_message_chunks (amount name : jsstring) :
  lit "Thank you so much for your generous donation of $" ++ amount
  ++ lit ", " ++ name
  ++ lit "! Your support means the world to us and will make a real"
  ++ lit " difference." ++ []
  = fallback_message amount name.
Proof. unfold fallback_message. do 4 f_equal. Qed.


(** The two ways [generateThankYouMessage] ends when its name and amount
    can be interpolated: with the fallback message, or with the trimmed
    candidate text of a successful reply to the request it issued. *)
Lemma generateThankYouMessage_cases name amount message sn sa :
  ToString name = Ok sn -> ToString amount = Ok sa ->
  let p := Server.generateThankYouMessage w name amount message in
  snd p = Ok (Str (fallback_message sa sn))
  \/ exists url init r data candidates s,
       In (Fetch url init) (fst p)
       /\ fetch_reply w url init = Ok r /\ ok r = true
       /\ json_body r = Ok data
       /\ Get data (lit "candidates") = Ok candidates
       /\ ToBoolean candidates = true
       /\ candidate_text data = Ok (Str s)
       /\ snd p = Ok (Str s).
Proof.
  intros Hsn Hsa. cbv zeta. unfold Server.generateThankYouMessage. run.
  rewrite Hsn, Hsa. run.
  repeat step; rewrite ?fallback_message_chunks; try (left; reflexivity).
  all: right.
  all: match goal with H : call_trim _ = Ok _ |- _ =>
         pose proof H as Htrim; apply call_trim_Ok in Htrim as (s & -> & ->)
       end.
  all: do 6 eexists; split; [left; reflexivity|].
  all: repeat (split; [eassumption|]).
  all: split; [|reflexivity].
  all: unfold candidate_text;
       repeat match goal with
              | H : ?c = Ok _ |- context [obind ?c _] =>
                  rewrite H; cbn [obind]
              end.
  all: assumption.
Qed.

(** With a name and an amount that can be interpolated, the function returns
    a string. *)
Lemma generateThankYouMessage_returns_string name amount message :
  printable name -> printable amount ->
  exists s,
    snd (Server.generateThankYouMessage w name amount message) = Ok (Str s).
Proof.
  intros [sn Hsn] [sa Hsa].
  destruct (generateThankYouMessage_cases name amount message sn sa Hsn Hsa)
    as [H | (_ & _ & _ & _ & _ & s & _ & _ & _ & _ & _ & _ & _ & H)]; eauto.
Qed.


(** The function on a reply with a text: it returns the text as [trim]
    leaves it, and the request is its only effect. *)
Lemma candidate_text_is_returned name amount message url init r data
    candidate others content parts part text :
  In (Fetch url init)
     (fst (Server.generateThankYouMessage w name amount message)) ->
  fetch_reply w url init = Ok r ->
  ok r = true ->
  json_body r = Ok data ->
  Get data (lit "candidates") = Ok (Arr (candidate :: others)) ->
  Get candidate (lit "content") = Ok content ->
  Get content (lit "parts") = Ok parts ->
  Get parts (lit "0") = Ok part ->
  Get part (lit "text") = Ok (Str text) ->
  Server.generateThankYouMessage w name amount message
  = ([Fetch url init], Ok (Str (trim text))).
Proof.
  intros Hin Hreply Hok Hjson Hcandidates Hcontent Hparts Hpart Htext.
  revert Hin. unfold Server.generateThankYouMessage. run.
  pose proof (Get_first candidate others) as Hfirst.
  pose proof (Get_length (candidate :: others)) as Hlength.
  assert (Hpositive :
            greater_than_zero
              (Num (Number_of_nat (List.length (candidate :: others))))
            = Ok true).
  { cbn [greater_than_zero]. now rewrite Number_of_nat_gt_zero. }
  assert (Htruthy : ToBoolean (Arr (candidate :: others)) = true)
    by reflexivity.
  assert (Htrim : call_trim (Str text) = Ok (Str (trim text))) by reflexivity.
  repeat step.
  all: intros Hin; cbn [In] in Hin.
  all: decompose [or] Hin; try discriminate; try contradiction.
  all: match goal with H : Fetch _ _ = Fetch _ _ |- _ =>
         apply Fetch_inj in H as [<- <-] end.
  all: congruence.
Qed.

(** C6. When the request the function issued is answered with a success
    status and a body whose first candidate carries a text, the function
    returns exactly that text without the white space around it: the text
    is the returned string between two runs of white space, and the returned
    string neither starts nor ends with white space (there is one such
    string, [stripped_unique]). The catch block with the fallback does not
    run: the request is the only effect. *)
Theorem trimmed_candidate_text name amount message url init r data
    candidate others content parts part text :
  In (Fetch url init)
     (fst (Server.generateThankYouMessage w name amount message)) ->
  fetch_reply w url init = Ok r ->
  ok r = true ->
  json_body r = Ok data ->
  Get data (lit "candidates") = Ok (Arr (candidate :: others)) ->
  Get candidate (lit "content") = Ok content ->
  Get content (lit "parts") = Ok parts ->
  Get parts (lit "0") = Ok part ->
  Get part (lit "text") = Ok (Str text) ->
  exists s,
    stripped text s
    /\ Server.generateThankYouMessage w name amount message
       = ([Fetch url init], Ok (Str s)).
Proof.
  intros Hin Hreply Hok Hjson Hcandidates Hcontent Hparts Hpart Htext.
  exists (trim text). split; [apply trim_stripped|].
  now apply (candidate_text_is_returned name amount message url init r data
               candidate others content parts part text).
Qed.

(** C8. The two revisions of [generateThankYouMessage] are the same function:
    same effects (hence same prompt and same request) and same result, for
    every argument and every behaviour of the external service. *)
Theorem generateThankYouMessage_revisions_agree name amount message :
  Part000.generateThankYouMessage w name amount message
  = Server.generateThankYouMessage w name amount message.
Proof. reflexivity. Qed.

(** C10. The message is tested for truthiness: the empty string behaves as
    an absent message, with the same request and the same result, in both
    revisions. *)
Theorem empty_message_as_absent name amount :
  Server.generateThankYouMessage w name amount (Str [])
  = Server.generateThankYouMessage w name amount Undefined
  /\ Part000.generateThankYouMessage w name amount (Str [])
     = Part000.generateThankYouMessage w name amount Undefined.
Proof. split; reflexivity. Qed.

End Generator.

(** * The webhook handler *)

Section Handler.
Context {E : Engine} (w : world).

Lemma webhook_handler_revisions_agree (event : jsval) :
  Part000.webhook_handler w event = Server.webhook_handler w event.
Proof. reflexivity. Qed.

Lemma recognized_tag :
  strict_equals_string (Str capture_completed)
    (lit "PAYMENT.CAPTURE.COMPLETED") = true.
Proof. apply str_eqb_refl. Qed.

(** What the handler does with a donation it can read and render: it
    generates the acknowledgement, hands exactly one mail to the transport,
    addressed to the parsed email and carrying the acknowledgement, and
    answers 200 or 500 according to the reply of the transport. *)
Lemma webhook_handler_fulfils (event : jsval) (d : donation) :
  recognized event -> ingest event = Ok d -> renderable d ->
  let t := fst (Server.webhook_handler w event) in
  exists m acknowledgement,
    mails t = [m]
    /\ snd (Server.generateThankYouMessage w (donor_name d) (amount_value d)
              (donor_message d)) = Ok (Str acknowledgement)
    /\ mail_to m = donor_email d
    /\ embeds (mail_html m) acknowledgement
    /\ responses t = [match sendMail_reply w m with
                      | Ok _ => 200%N
                      | Raise _ => 500%N
                      end]
    /\ (forall e, sendMail_reply w m = Raise e ->
        In (ConsoleError (lit "Error processing webhook:") (Some e)) t).
Proof.
  intros Hrecognized Hingest (Hamount & Hname & Hemail & id & Hid & Hidp).
  unfold ingest in Hingest.
  apply obind_Ok in Hingest as (resource & Hresource & Hingest).
  apply obind_Ok in Hingest as (amount & Hvalue & Hingest).
  apply obind_Ok in Hvalue as (amount_object & Hamount_object & Hvalue).
  apply obind_Ok in Hingest as (purchase_unit & Hunit & Hingest).
  apply obind_Ok in Hunit as (purchase_units & Hunits & Hunit).
  apply obind_Ok in Hingest as (donorInfo & Hdonor & Hingest).
  apply obind_Ok in Hdonor as (custom_id & Hcustom & Hdonor).
  apply obind_Ok in Hingest as (name & Hn & Hingest).
  apply obind_Ok in Hingest as (email & He & Hingest).
  apply obind_Ok in Hingest as (message & Hm & Hingest).
  injection Hingest as <-.
  cbn [capture amount_value donor_name donor_email donor_message] in *.
  destruct Hamount as [sa Hsa], Hname as [sn Hsn], Hemail as [se Hse],
    Hidp as [si Hsi].
  destruct (generateThankYouMessage_returns_string w name amount message)
    as [acknowledgement Hack]; [now exists sn | now exists sa |].
  pose proof (generateThankYouMessage_harmless w name amount message) as Hquiet.
  apply harmless_trace in Hquiet as (Hmails & Hresponses & _).
  destruct (Server.generateThankYouMessage w name amount message)
    as [tg og] eqn:Hg.
  cbn [fst snd] in Hack, Hmails, Hresponses. subst og.
  pose proof (ToString_env (EMAIL_FROM w)) as Hfrom.
  cbv zeta. unfold Server.webhook_handler. rewrite Hrecognized. run.
  rewrite recognized_tag. run.
  repeat step.
  all: eexists; exists acknowledgement.
  all: split; [trace_split; rewrite Hmails; trace_compute; reflexivity|].
  all: split; [reflexivity|].
  all: split; [reflexivity|].
  all: split;
    [ cbn [mail_html];
      repeat first [ apply embeds_here; vm_compute; reflexivity
                   | apply embeds_later ] |].
  all: split;
    [ trace_split; rewrite Hresponses; trace_compute;
      match goal with H : sendMail_reply _ _ = _ |- _ => rewrite H end;
      reflexivity |].
  all: intros e' He';
    match goal with
    | H : sendMail_reply _ _ = ?reply |- _ =>
        lazymatch reply with
        | Raise e' => fail
        | _ => rewrite H in He'
        end
    end;
    try discriminate.
  injection He' as <-.
  do 2 right. apply in_or_app. right. left. reflexivity.
Qed.


(** C3, as amended. The handler validates nothing: for every recognized
    event whose donor intent lacks a name or an email, or has them empty, and
    can be rendered, the handler still hands exactly one mail to the
    transporter, addressed to the email as parsed, and answers 500 exactly
    when the transporter rejects that mail, 200 otherwise; in both
    revisions. *)
Theorem incomplete_intent_is_dispatched (event : jsval) (d : donation) :
  recognized event -> ingest event = Ok d -> renderable d ->
  missing_or_empty (donor_name d) \/ missing_or_empty (donor_email d) ->
  (exists m,
     mails (fst (Server.webhook_handler w event)) = [m]
     /\ mail_to m = donor_email d
     /\ responses (fst (Server.webhook_handler w event))
        = [match sendMail_reply w m with
           | Ok _ => 200%N
           | Raise _ => 500%N
           end])
  /\ Part000.webhook_handler w event = Server.webhook_handler w event.
Proof.
  intros Hrecognized Hingest Hrenderable _.
  destruct (webhook_handler_fulfils event d Hrecognized Hingest Hrenderable)
    as (m & acknowledgement & Hmails & _ & Hto & _ & Hresponses & _).
  split; [eauto | reflexivity].
Qed.

(** C7. For every recognized event that can be read and rendered, when the
    mail transport rejects the mail the handler hands to it, the rejection
    reaches the catch block of the handler, which logs it and answers 500,
    although the acknowledgement was generated. *)
Theorem transport_rejection_is_surfaced (event : jsval) (d : donation) :
  recognized event -> ingest event = Ok d -> renderable d ->
  let t := fst (Server.webhook_handler w event) in
  (forall m, In (SendMail m) t -> exists e, sendMail_reply w m = Raise e) ->
  exists m e acknowledgement,
    snd (Server.generateThankYouMessage w (donor_name d) (amount_value d)
           (donor_message d)) = Ok (Str acknowledgement)
    /\ mails t = [m]
    /\ sendMail_reply w m = Raise e
    /\ In (ConsoleError (lit "Error processing webhook:") (Some e)) t
    /\ responses t = [500%N].
Proof.
  intros Hrecognized Hingest Hrenderable t Hrejects.
  destruct (webhook_handler_fulfils event d Hrecognized Hingest Hrenderable)
    as (m & acknowledgement & Hmails & Hack & _ & _ & Hresponses & Hlogged).
  fold t in Hmails, Hresponses, Hlogged.
  destruct (Hrejects m) as [e He].
  { apply In_mails. rewrite Hmails. now left. }
  rewrite He in Hresponses.
  exists m, e, acknowledgement. auto 10.
Qed.

(** Every call of the generator leaves an effect: the request, or the
    console message of its catch block. *)
Lemma generateThankYouMessage_leaves_effect name amount message :
  fst (Server.generateThankYouMessage w name amount message) <> [].
Proof.
  unfold Server.generateThankYouMessage. run.
  repeat step; discriminate.
Qed.

(** C4. For every event whose type is not the capture-completed tag, the
    only effect of the handler is the response 200: no request to the
    generative-text service, no console message of the generator, no mail. *)
Theorem unrecognized_event_is_acknowledged (event event_type : jsval) :
  Get event (lit "event_type") = Ok event_type ->
  event_type <> Str capture_completed ->
  Server.webhook_handler w event = ([SendStatus 200], Ok tt).
Proof.
  intros Htype Hother. unfold Server.webhook_handler. rewrite Htype. run.
  destruct (strict_equals_string event_type _) eqn:Htag; [|reflexivity].
  apply strict_equals_string_true in Htag. contradiction.
Qed.

(** An absent [custom_id] is a [custom_id] that does not parse. *)
Lemma absent_custom_id_unusable
    (event resource purchase_units purchase_unit : jsval) :
  Get event (lit "resource") = Ok resource ->
  Get resource (lit "purchase_units") = Ok purchase_units ->
  Get purchase_units (lit "0") = Ok purchase_unit ->
  Get purchase_unit (lit "custom_id") = Ok Undefined ->
  unusable_metadata event.
Proof.
  intros Hresource Hunits Hunit Hcustom.
  eapply custom_id_not_json; try eassumption. apply JSON_parse_undefined.
Qed.

(** C5. For every recognized event whose metadata cannot be used (the path
    to the [custom_id] is absent, or the [custom_id] is not JSON), the
    handler answers 500 and neither sends a mail nor calls the
    generative-text service. *)
Theorem unusable_metadata_fails (event : jsval) :
  recognized event -> unusable_metadata event ->
  let t := fst (Server.webhook_handler w event) in
  responses t = [500%N] /\ mails t = [] /\ fetches t = [].
Proof.
  intros Hrecognized Hunusable. cbv zeta.
  unfold Server.webhook_handler. rewrite Hrecognized. run.
  rewrite recognized_tag. run.
  destruct Hunusable as
    [ resource Hresource Habsent
    | resource purchase_units Hresource Hunits Habsent
    | resource purchase_units purchase_unit Hresource Hunits Hunit Habsent
    | resource purchase_units purchase_unit custom_id e
        Hresource Hunits Hunit Hcustom Hparse ].
  - pose proof (Get_nullish resource (lit "amount") Habsent).
    repeat step. repeat split; reflexivity.
  - pose proof (Get_nullish purchase_units (lit "0") Habsent).
    repeat step; repeat split; reflexivity.
  - pose proof (Get_nullish purchase_unit (lit "custom_id") Habsent).
    repeat step; repeat split; reflexivity.
  - repeat step; repeat split; reflexivity.
Qed.

(** Without a body the handler throws before it answers: reading
    [event_type] of [undefined] is outside the try block. *)
Lemma webhook_handler_without_body :
  Server.webhook_handler w Undefined = ([], Raise TypeError).
Proof. reflexivity. Qed.


End Handler.

(** * The scenarios of the specification, and the three sentences that fail *)


(** The witness of C6: the generator answers Ada with a padded text, two
    spaces before it, a line feed and a space after it. *)
Lemma trimmed_candidate_text_witness :
  stripped (lit "  Thank you, Ada! The children say hello.
 ") (lit "Thank you, Ada! The children say hello.")
  /\ Server.generateThankYouMessage
       (Scenario.all_up "  Thank you, Ada! The children say hello.
 ")
       (Str (lit "Ada")) (Str (lit "25.00")) Undefined
     = ([Fetch Scenario.ada_request_url Scenario.ada_request],
        Ok (Str (lit "Thank you, Ada! The children say hello."))).
Proof.
  destruct (trimmed_candidate_text
              (Scenario.all_up "  Thank you, Ada! The children say hello.
 ")
              (Str (lit "Ada")) (Str (lit "25.00")) Undefined
              Scenario.ada_request_url Scenario.ada_request
              (Scenario.generated "  Thank you, Ada! The children say hello.
 ")
              (Obj [(lit "candidates",
                     Arr [Obj [(lit "content",
                                Obj [(lit "parts",
                                      Arr [Obj [(lit "text",
                                                 Str (lit "  Thank you, Ada! The children say hello.
 "))]])])]])])
              (Obj [(lit "content",
                     Obj [(lit "parts",
                           Arr [Obj [(lit "text",
                                      Str (lit "  Thank you, Ada! The children say hello.
 "))]])])])
              []
              (Obj [(lit "parts",
                     Arr [Obj [(lit "text",
                                Str (lit "  Thank you, Ada! The children say hello.
 "))]])])
              (Arr [Obj [(lit "text",
                          Str (lit "  Thank you, Ada! The children say hello.
 "))]])
              (Obj [(lit "text",
                     Str (lit "  Thank you, Ada! The children say hello.
 "))])
              (lit "  Thank you, Ada! The children say hello.
 "))
    as (s & Hstripped & Hreturned).
  - left. vm_compute. reflexivity.
  - reflexivity.
  - reflexivity.
  - reflexivity.
  - reflexivity.
  - reflexivity.
  - reflexivity.
  - reflexivity.
  - reflexivity.
  - assert (Hs : s = lit "Thank you, Ada! The children say hello.").
    { vm_compute in Hreturned. injection Hreturned as <-. reflexivity. }
    rewrite <- Hs. split; [exact Hstripped | exact Hreturned].
Defined.



(** The witness of C3: a donor intent without a name. *)
Lemma incomplete_intent_is_dispatched_witness :
  (exists m,
     mails (fst (Server.webhook_handler Scenario.generator_down
                   Scenario.nameless)) = [m]
     /\ mail_to m = Str (lit "ada@x.com")
     /\ responses (fst (Server.webhook_handler Scenario.generator_down
                          Scenario.nameless))
        = [match sendMail_reply Scenario.generator_down m with
           | Ok _ => 200%N
           | Raise _ => 500%N
           end])
  /\ Part000.webhook_handler Scenario.generator_down Scenario.nameless
     = Server.webhook_handler Scenario.generator_down Scenario.nameless.
Proof.
  apply (incomplete_intent_is_dispatched Scenario.generator_down
           Scenario.nameless Scenario.nameless_donation).
  - reflexivity.
  - reflexivity.
  - repeat split; try (eexists; reflexivity).
    eexists. split; [reflexivity | eexists; reflexivity].
  - left. left. reflexivity.
Defined.

(** C3 fails as written: for a donor intent without a name the handler
    sends the mail and answers 200. *)
Lemma rejects_incomplete_intent_fails :
  responses (fst (Server.webhook_handler Scenario.generator_down
                    Scenario.nameless)) = [200%N]
  /\ List.length (mails (fst (Server.webhook_handler Scenario.generator_down
                                Scenario.nameless))) = 1
  /\ ~ rejects_incomplete_intent IntegerEngine.engine.
Proof.
  split; [reflexivity|]. split; [reflexivity|].
  intros H.
  destruct (H Scenario.generator_down Scenario.nameless
              Scenario.nameless_donation) as [Hresponses _].
  - reflexivity.
  - reflexivity.
  - left. left. reflexivity.
  - vm_compute in Hresponses. discriminate Hresponses.
Qed.

(** The witness of C4: Scenario B. *)
Lemma unrecognized_event_is_acknowledged_witness :
  Server.webhook_handler Scenario.generator_down Scenario.order_created
  = ([SendStatus 200], Ok tt).
Proof.
  apply (unrecognized_event_is_acknowledged Scenario.generator_down
           Scenario.order_created (Str (lit "CHECKOUT.ORDER.APPROVED"))).
  - reflexivity.
  - intros H. vm_compute in H. discriminate H.
Defined.

(** The witness of C5: Scenario C. *)
Lemma unusable_metadata_fails_witness :
  let t := fst (Server.webhook_handler Scenario.generator_down
                  Scenario.not_json) in
  responses t = [500%N] /\ mails t = [] /\ fetches t = [].
Proof.
  apply (unusable_metadata_fails Scenario.generator_down Scenario.not_json).
  - reflexivity.
  - eapply custom_id_not_json; reflexivity.
Defined.

(** The witness of C7: Scenario D. *)
Lemma transport_rejection_is_surfaced_witness :
  let t := fst (Server.webhook_handler Scenario.transport_down Scenario.ada) in
  exists m e acknowledgement,
    snd (Server.generateThankYouMessage Scenario.transport_down
           (Str (lit "Ada")) (Str (lit "25.00")) Undefined)
    = Ok (Str acknowledgement)
    /\ mails t = [m]
    /\ sendMail_reply Scenario.transport_down m = Raise e
    /\ In (ConsoleError (lit "Error processing webhook:") (Some e)) t
    /\ responses t = [500%N].
Proof.
  apply (transport_rejection_is_surfaced Scenario.transport_down
           Scenario.ada Scenario.ada_donation).
  - reflexivity.
  - reflexivity.
  - repeat split; try (eexists; reflexivity).
    eexists. split; [reflexivity | eexists; reflexivity].
  - intros m _. eexists. reflexivity.
Defined.



(** Scenario A, run: the mail goes to Ada, carries the fallback message with
    her name and the amount, and the handler answers 200. *)
Example scenario_A :
  exists m,
    mails (fst (Server.webhook_handler Scenario.generator_down Scenario.ada))
    = [m]
    /\ mail_to m = Str (lit "ada@x.com")
    /\ embeds (mail_html m) (fallback_message (lit "25.00") (lit "Ada"))
    /\ responses
         (fst (Server.webhook_handler Scenario.generator_down Scenario.ada))
       = [200%N].
Proof.
  destruct (webhook_handler_fulfils Scenario.generator_down Scenario.ada
              Scenario.ada_donation)
    as (m & acknowledgement & Hmails & Hack & Hto & Hembeds & Hresponses & _).
  - reflexivity.
  - reflexivity.
  - repeat split; try (eexists; reflexivity).
    eexists. split; [reflexivity | eexists; reflexivity].
  - exists m. vm_compute in Hack. injection Hack as <-.
    repeat split; assumption.
Qed.

(** * [JSON.parse] after [JSON.stringify] *)

Section RoundTrip.
Context {E : Engine}.

Lemma jsval_induction (P : jsval -> Prop) :
  P Undefined -> P Null -> (forall b, P (Bool b)) -> (forall n, P (Num n)) ->
  (forall s, P (Str s)) ->
  (forall items, Forall P items -> P (Arr items)) ->
  (forall props, Forall (fun kv => P (snd kv)) props -> P (Obj props)) ->
  forall v, P v.
Proof.
  intros HU HN HB HNum HS HA HO.
  fix IH 1. intros [| |b|n|s|items|props].
  - exact HU.
  - exact HN.
  - apply HB.
  - apply HNum.
  - apply HS.
  - apply HA. induction items as [|x items IHitems]; constructor.
    + apply IH.
    + exact IHitems.
  - apply HO. induction props as [|[k x] props IHprops]; constructor.
    + apply IH.
    + exact IHprops.
Qed.

(** ** The lexer on the output of the serializer *)

Lemma lex_silent st st' c rest :
  lex_step st c = Some (st', []) -> lex st (c :: rest) = lex st' rest.
Proof.
  intros H. cbn [lex]. rewrite H. destruct (lex st' rest); reflexivity.
Qed.

Lemma lex_token st c t rest :
  lex_step st c = Some (LStart, [t]) ->
  lex st (c :: rest) = option_map (cons t) (lex LStart rest).
Proof.
  intros H. cbn [lex]. rewrite H. destruct (lex LStart rest); reflexivity.
Qed.

Lemma lex_LWord_end acc t rest :
  word_token (rev acc) = Some t -> terminated rest ->
  lex (LWord acc) rest = option_map (cons t) (lex LStart rest).
Proof.
  intros Ht Hrest. destruct rest as [|c rest]; cbn [lex lex_step].
  - rewrite Ht. reflexivity.
  - cbn [terminated] in Hrest. rewrite Hrest, Ht.
    destruct (lex_start c) as [[st' ts]|]; [|reflexivity].
    destruct (lex st' rest); reflexivity.
Qed.

(** A text that lexes on its own lexes the same way in front of a text that
    ends its last word. *)
Lemma lex_app w : forall st ts rest,
  lex st w = Some ts -> terminated rest ->
  lex st (w ++ rest) = option_map (app ts) (lex LStart rest).
Proof.
  induction w as [|c w IH]; intros st ts rest Hw Hrest.
  - cbn [app]. cbn [lex] in Hw. destruct st; try discriminate.
    + injection Hw as <-. destruct (lex LStart rest); reflexivity.
    + destruct (word_token (rev acc)) eqn:Ht; [|discriminate].
      injection Hw as <-.
      rewrite (lex_LWord_end _ _ _ Ht Hrest).
      destruct (lex LStart rest); reflexivity.
  - cbn [app lex] in *.
    destruct (lex_step st c) as [[st' ts1]|]; [|discriminate].
    destruct (lex st' w) as [ts2|] eqn:H2; [|discriminate].
    injection Hw as <-.
    rewrite (IH _ _ _ H2 Hrest).
    destruct (lex LStart rest); cbn [option_map]; [rewrite app_assoc|];
      reflexivity.
Qed.

Lemma hex_value_digit n : (n < 16)%N -> hex_value (hex_digit n) = Some n.
Proof.
  intros H.
  destruct n as [|p]; [reflexivity|].
  do 4 (destruct p as [p|p|]; try reflexivity); exfalso; lia.
Qed.

Lemma unicode_value c : (c < 65536)%N ->
  (16 * (16 * (16 * (16 * 0 + c / 4096) + (c / 256) mod 16) + (c / 16) mod 16)
   + c mod 16 = c)%N.
Proof.
  intros H.
  pose proof (N.div_mod c 16) as H1.
  pose proof (N.div_mod (c / 16) 16) as H2.
  pose proof (N.div_mod (c / 256) 16) as H3.
  rewrite N.Div0.div_div in H2. change (16 * 16)%N with 256%N in H2.
  rewrite N.Div0.div_div in H3. change (256 * 16)%N with 4096%N in H3.
  assert (c / 4096 < 16)%N by (apply N.Div0.div_lt_upper_bound; lia).
  lia.
Qed.

Lemma lex_unicode_escape c acc rest : (c < 65536)%N ->
  lex (LString acc) (unicode_escape c ++ rest) = lex (LString (c :: acc)) rest.
Proof.
  intros H. unfold unicode_escape.
  change (lit "\u") with [92%N; 117%N]. cbn [app].
  rewrite (lex_silent (LString acc) (LEscape acc)) by reflexivity.
  rewrite (lex_silent (LEscape acc) (LUnicode acc 0 3)) by reflexivity.
  assert (c / 4096 < 16)%N by (apply N.Div0.div_lt_upper_bound; lia).
  assert ((c / 256) mod 16 < 16)%N by (apply N.mod_lt; lia).
  assert ((c / 16) mod 16 < 16)%N by (apply N.mod_lt; lia).
  assert (c mod 16 < 16)%N by (apply N.mod_lt; lia).
  erewrite lex_silent
    by (cbn [lex_step]; rewrite hex_value_digit by assumption; reflexivity).
  erewrite lex_silent
    by (cbn [lex_step]; rewrite hex_value_digit by assumption; reflexivity).
  erewrite lex_silent
    by (cbn [lex_step]; rewrite hex_value_digit by assumption; reflexivity).
  erewrite lex_silent
    by (cbn [lex_step]; rewrite hex_value_digit by assumption; reflexivity).
  rewrite unicode_value by assumption. reflexivity.
Qed.

Lemma lex_plain_unit c acc rest :
  (c =? 34)%N = false -> (c =? 92)%N = false -> (c <? 32)%N = false ->
  lex (LString acc) (c :: rest) = lex (LString (c :: acc)) rest.
Proof.
  intros H1 H2 H3. apply lex_silent. cbn [lex_step]. now rewrite H1, H2, H3.
Qed.

Lemma lex_quote_unit c acc rest :
  lex (LString acc) (quote_unit c ++ rest) = lex (LString (c :: acc)) rest.
Proof.
  unfold quote_unit.
  repeat match goal with
         | |- context [(c =? ?k)%N] =>
             destruct (N.eqb_spec c k);
             [ subst c; cbn [app lit unit_of_ascii];
               do 2 (erewrite lex_silent by reflexivity); reflexivity |]
         end.
  destruct (c <? 32)%N eqn:Hlow.
  { apply lex_unicode_escape. apply N.ltb_lt in Hlow. lia. }
  destruct (is_high_surrogate c || is_low_surrogate c) eqn:Hs.
  { apply lex_unicode_escape. unfold is_high_surrogate, is_low_surrogate in Hs.
    apply orb_true_iff in Hs as [Hs | Hs];
      apply andb_true_iff in Hs as [_ Hs]; apply N.leb_le in Hs; lia. }
  cbn [app]. apply lex_plain_unit; [apply N.eqb_neq | apply N.eqb_neq |];
    assumption.
Qed.

Lemma lex_surrogate c acc rest :
  (55296 <=? c)%N = true ->
  lex (LString acc) (c :: rest) = lex (LString (c :: acc)) rest.
Proof.
  intros H. apply N.leb_le in H.
  apply lex_plain_unit;
    [apply N.eqb_neq | apply N.eqb_neq | apply N.ltb_ge]; lia.
Qed.

Lemma lex_quote_units_bounded n : forall s acc rest,
  List.length s <= n ->
  lex (LString acc) (quote_units s ++ rest) = lex (LString (rev s ++ acc)) rest.
Proof.
  induction n as [|n IH]; intros s acc rest Hn.
  - destruct s; [reflexivity | cbn in Hn; lia].
  - destruct s as [|c [|d s]].
    + reflexivity.
    + cbn [quote_units rev app]. apply lex_quote_unit.
    + change (quote_units (c :: d :: s))
        with (if is_high_surrogate c && is_low_surrogate d
              then c :: d :: quote_units s
              else quote_unit c ++ quote_units (d :: s)).
      destruct (is_high_surrogate c && is_low_surrogate d) eqn:Hpair.
      * apply andb_true_iff in Hpair as [Hc Hd].
        unfold is_high_surrogate in Hc. unfold is_low_surrogate in Hd.
        apply andb_true_iff in Hc as [Hc _]. apply andb_true_iff in Hd as [Hd _].
        cbn [app]. rewrite lex_surrogate by assumption.
        rewrite lex_surrogate
          by (apply N.leb_le; apply N.leb_le in Hd; lia).
        rewrite IH by (cbn in Hn; lia).
        cbn [rev]. now rewrite <- !app_assoc.
      * rewrite <- app_assoc, lex_quote_unit.
        rewrite IH by (cbn in Hn |- *; lia).
        cbn [rev]. now rewrite <- !app_assoc.
Qed.

Lemma lex_QuoteJSONString s rest :
  lex LStart (QuoteJSONString s ++ rest)
  = option_map (cons (TString s)) (lex LStart rest).
Proof.
  unfold QuoteJSONString. change (lit "`") with [34%N].
  rewrite <- !app_assoc. cbn [app].
  rewrite (lex_silent LStart (LString [])) by reflexivity.
  rewrite (lex_quote_units_bounded (List.length s)) by lia.
  rewrite app_nil_r.
  rewrite <- (rev_involutive s) at 2.
  apply lex_token. reflexivity.
Qed.

(** ** The parser on the tokens of a number *)

Lemma parse_tokens_PDone v ts r :
  parse_tokens (PDone v) ts = Some r -> ts = [] /\ r = v.
Proof.
  destruct ts; cbn; [intros [= <-]; auto | discriminate].
Qed.

Lemma complete_inside v stack :
  stack <> [] -> inside_container (complete v stack).
Proof. destruct stack as [|[]]; cbn; [congruence | exact (fun _ => I) ..]. Qed.

Lemma complete_container v stack :
  (forall n, v <> Num n) -> inside_container (complete v stack).
Proof. destruct stack as [|[]]; cbn; auto. Qed.

Lemma begin_value_inside t stack st :
  stack <> [] -> begin_value t stack = Some st -> inside_container st.
Proof.
  intros Hs.
  destruct t; cbn; try discriminate; intros [= <-];
    try (apply complete_inside; assumption); exact I.
Qed.

Lemma parse_step_inside st t st' :
  inside_container st -> parse_step st t = Some st' -> inside_container st'.
Proof.
  intros Hst. destruct st; cbn [parse_step].
  - apply begin_value_inside. exact Hst.
  - destruct t; try (apply begin_value_inside; discriminate).
    intros [= <-]. apply complete_container. discriminate.
  - destruct t; try discriminate; intros [= <-];
      [apply complete_container; discriminate | cbn; discriminate].
  - destruct t; try discriminate; intros [= <-];
      [apply complete_container; discriminate | exact I].
  - destruct t; try discriminate; intros [= <-]. exact I.
  - destruct t; try discriminate; intros [= <-]. cbn. discriminate.
  - destruct t; try discriminate; intros [= <-];
      [apply complete_container; discriminate | exact I].
  - destruct t; discriminate.
Qed.

Lemma container_result ts : forall st v,
  inside_container st -> parse_tokens st ts = Some v -> forall n, v <> Num n.
Proof.
  induction ts as [|t ts IH]; intros st v Hst H.
  - destruct st; try discriminate. injection H as <-. exact Hst.
  - cbn [parse_tokens] in H.
    destruct (parse_step st t) as [st'|] eqn:Hstep; [|discriminate].
    exact (IH st' v (parse_step_inside _ _ _ Hst Hstep) H).
Qed.

(** A text that [JSON.parse] reads as a number is one number token. *)
Lemma number_reads_as text n :
  parse_text text = Ok (Num n) -> reads_as text (Num n).
Proof.
  unfold parse_text.
  destruct (lex LStart text) as [ts|] eqn:Hlex; [|discriminate].
  destruct (parse_tokens (PValue []) ts) as [v|] eqn:Hparse; [|discriminate].
  intros [= ->].
  destruct ts as [|t ts]; [discriminate|].
  cbn [parse_tokens parse_step] in Hparse.
  destruct t; cbn [begin_value complete] in Hparse; try discriminate.
  - exfalso. exact (container_result ts (PObjStart []) _ I Hparse n eq_refl).
  - exfalso. exact (container_result ts (PArrStart []) _ I Hparse n eq_refl).
  - apply parse_tokens_PDone in Hparse as [_ [=]].
  - apply parse_tokens_PDone in Hparse as [-> [= ->]].
    exists [TNumber lexeme]. split; [exact Hlex|]. split; reflexivity.
  - apply parse_tokens_PDone in Hparse as [_ [=]].
  - apply parse_tokens_PDone in Hparse as [_ [=]].
  - apply parse_tokens_PDone in Hparse as [_ [=]].
Qed.

(** ** The serializer on plain values *)

Lemma Serialize_Arr items :
  SerializeJSONProperty (Arr items)
  = Some (lit "[" ++ join_with (lit ",") (map element_text items) ++ lit "]").
Proof. reflexivity. Qed.

Lemma plain_serializes v : plain v -> SerializeJSONProperty v <> None.
Proof.
  destruct 1; cbn [SerializeJSONProperty]; try discriminate.
  destruct b; discriminate.
Qed.

Lemma enumerable_named {A} (props : list (jsstring * A)) :
  Forall (fun kv => array_index (fst kv) = None) props ->
  enumerable_own_properties props = props.
Proof.
  intros H. unfold enumerable_own_properties, named_props.
  assert (Hi : index_props props = []).
  { induction H as [|[k x] props Hk _ IH]; [reflexivity|].
    cbn [index_props]. cbn [fst] in Hk. now rewrite Hk. }
  rewrite Hi. clear Hi. cbn [map app].
  induction H as [|[k x] props Hk _ IH]; [reflexivity|].
  cbn [filter fst] in *. rewrite Hk. now rewrite IH.
Qed.

Lemma Serialize_Obj props :
  Forall (fun kv => array_index (fst kv) = None /\ plain (snd kv)) props ->
  SerializeJSONProperty (Obj props)
  = Some (lit "{" ++ join_with (lit ",") (map member_text props) ++ lit "}").
Proof.
  intros H. cbn [SerializeJSONProperty].
  match goal with |- context [enumerable_own_properties ?m] =>
    assert (Hm : m = map (fun kv => (fst kv, element_text (snd kv))) props)
  end.
  { induction H as [|[k x] props [_ Hx] _ IH]; [reflexivity|].
    cbn [map fst snd] in Hx |- *. rewrite IH. unfold element_text.
    apply plain_serializes in Hx.
    destruct (SerializeJSONProperty x); [reflexivity | congruence]. }
  rewrite Hm. rewrite enumerable_named.
  - rewrite map_map. reflexivity.
  - apply Forall_map. eapply Forall_impl; [|exact H]. now intros [k x] [Hk _].
Qed.

Lemma define_property_fresh done k v :
  ~ In k (map fst done) -> define_property done k v = done ++ [(k, v)].
Proof.
  induction done as [|[k' x] done IH]; intros Hk; [reflexivity|].
  cbn [define_property app].
  destruct (str_eqb k' k) eqn:Heq.
  - exfalso. apply Hk. left. cbn. now apply str_eqb_eq.
  - rewrite IH; [reflexivity|]. intros Hin. apply Hk. now right.
Qed.

(** ** Reading back what was written *)

Lemma lex_literal text t rest :
  lex LStart text = Some [t] -> terminated rest ->
  lex LStart (text ++ rest) = option_map (cons t) (lex LStart rest).
Proof.
  intros H Hrest. rewrite (lex_app text LStart [t] rest H Hrest).
  destruct (lex LStart rest); reflexivity.
Qed.

Lemma lex_punctuator (p : string) c t rest :
  lit p = [c] -> lex_step LStart c = Some (LStart, [t]) ->
  lex LStart (lit p ++ rest) = option_map (cons t) (lex LStart rest).
Proof. intros -> H. now apply lex_token. Qed.

Lemma elements_read_back items :
  Forall (fun x => reads_as (element_text x) x) items ->
  items <> [] ->
  exists ts,
    lex LStart (join_with (lit ",") (map element_text items) ++ lit "]")
    = Some ts
    /\ (forall before stack more,
          parse_tokens (PValue (InArr before :: stack)) (ts ++ more)
          = parse_tokens (complete (Arr (rev before ++ items)) stack) more)
    /\ (forall stack more,
          parse_tokens (PArrStart stack) (ts ++ more)
          = parse_tokens (PValue (InArr [] :: stack)) (ts ++ more)).
Proof.
  induction items as [|x items IH]; [congruence|]. intros HF _.
  inversion HF as [|? ? (ts & Hlex & Hparse & Hstart) HF']; subst.
  destruct items as [|y items].
  - exists (ts ++ [TRBracket]). cbn [map join_with]. repeat split.
    + now rewrite (lex_app _ LStart ts (lit "]") Hlex).
    + intros before stack more. rewrite <- app_assoc, Hparse. reflexivity.
    + intros stack more. rewrite <- app_assoc. apply Hstart.
  - destruct (IH HF') as (ts' & Hlex' & Hparse' & _); [discriminate|].
    exists (ts ++ TComma :: ts').
    change (join_with (lit ",") (map element_text (x :: y :: items)))
      with (element_text x ++ lit ","
            ++ join_with (lit ",") (map element_text (y :: items))).
    repeat split.
    + rewrite <- !app_assoc.
      rewrite (lex_app _ LStart ts _ Hlex) by reflexivity.
      rewrite (lex_punctuator "," 44%N TComma) by reflexivity.
      rewrite Hlex'. reflexivity.
    + intros before stack more. rewrite <- app_assoc, Hparse.
      cbn [app complete parse_tokens parse_step]. rewrite Hparse'.
      cbn [rev]. now rewrite <- app_assoc.
    + intros stack more. rewrite <- app_assoc. apply Hstart.
Qed.

Lemma member_tokens k x ts rest :
  lex LStart (element_text x) = Some ts -> terminated rest ->
  lex LStart (member_text (k, x) ++ rest)
  = option_map (app (TString k :: TColon :: ts)) (lex LStart rest).
Proof.
  intros Hlex Hrest. unfold member_text. cbn [fst snd].
  rewrite <- !app_assoc. rewrite lex_QuoteJSONString.
  rewrite (lex_punctuator ":" 58%N TColon) by reflexivity.
  rewrite (lex_app _ LStart ts rest Hlex Hrest).
  destruct (lex LStart rest); reflexivity.
Qed.

Lemma members_read_back props :
  Forall (fun kv => reads_as (element_text (snd kv)) (snd kv)) props ->
  props <> [] ->
  exists ts,
    lex LStart (join_with (lit ",") (map member_text props) ++ lit "}")
    = Some ts
    /\ (forall done stack more,
          NoDup (map fst done ++ map fst props) ->
          parse_tokens (PObjKey done stack) (ts ++ more)
          = parse_tokens (complete (Obj (done ++ props)) stack) more)
    /\ (forall stack more,
          parse_tokens (PObjStart stack) (ts ++ more)
          = parse_tokens (PObjKey [] stack) (ts ++ more)).
Proof.
  induction props as [|[k x] props IH]; [congruence|]. intros HF _.
  inversion HF as [|? ? (ts & Hlex & Hparse & _) HF']; subst.
  cbn [snd] in Hlex, Hparse.
  assert (Hfresh : forall done,
            NoDup (map fst done ++ map fst ((k, x) :: props)) ->
            define_property done k x = done ++ [(k, x)]).
  { intros done Hdup. apply define_property_fresh.
    apply NoDup_remove_2 in Hdup. intros Hin. apply Hdup.
    apply in_or_app. now left. }
  destruct props as [|kx' props].
  - exists (TString k :: TColon :: ts ++ [TRBrace]).
    cbn [map join_with]. repeat split.
    + now rewrite (member_tokens k x ts (lit "}") Hlex).
    + intros done stack more Hdup.
      cbn [app parse_tokens parse_step]. rewrite <- app_assoc, Hparse.
      cbn [app complete parse_tokens parse_step].
      now rewrite (Hfresh done Hdup).
  - destruct (IH HF') as (ts' & Hlex' & Hparse' & _); [discriminate|].
    exists (TString k :: TColon :: ts ++ TComma :: ts').
    change (join_with (lit ",") (map member_text ((k, x) :: kx' :: props)))
      with (member_text (k, x) ++ lit ","
            ++ join_with (lit ",") (map member_text (kx' :: props))).
    repeat split.
    + rewrite <- !app_assoc.
      rewrite (member_tokens k x ts _ Hlex) by reflexivity.
      rewrite (lex_punctuator "," 44%N TComma) by reflexivity.
      rewrite Hlex'. reflexivity.
    + intros done stack more Hdup.
      cbn [app parse_tokens parse_step]. rewrite <- app_assoc, Hparse.
      cbn [app complete parse_tokens parse_step].
      rewrite (Hfresh done Hdup). rewrite Hparse'.
      * now rewrite <- app_assoc.
      * rewrite map_app, <- app_assoc. exact Hdup.
Qed.

(** The text of a plain value reads as that value. *)
Lemma plain_reads_back v : plain v -> reads_as (element_text v) v.
Proof.
  induction v as [| |b|n|s|items IH|props IH] using jsval_induction;
    intros Hplain; inversion Hplain; subst.
  - exists [TNull]. repeat split; reflexivity.
  - destruct b; [exists [TTrue] | exists [TFalse]]; repeat split; reflexivity.
  - unfold element_text. cbn [SerializeJSONProperty].
    match goal with H : Number_isFinite n = true |- _ => rewrite H end.
    apply number_reads_as. assumption.
  - exists [TString s]. unfold element_text. cbn [SerializeJSONProperty].
    repeat split.
    rewrite <- (app_nil_r (QuoteJSONString s)). apply lex_QuoteJSONString.
  - unfold element_text. rewrite Serialize_Arr.
    destruct items as [|x items].
    { exists [TLBracket; TRBracket]. repeat split; reflexivity. }
    destruct (elements_read_back (x :: items)) as (ts & Hlex & Hparse & Hstart);
      [|discriminate|].
    { rewrite Forall_forall in IH |- *. intros y Hy. apply IH; [exact Hy|].
      match goal with H : Forall plain _ |- _ =>
        rewrite Forall_forall in H; exact (H y Hy) end. }
    exists (TLBracket :: ts). repeat split.
    + rewrite (lex_punctuator "[" 91%N TLBracket) by reflexivity.
      rewrite Hlex. reflexivity.
    + intros stack more. cbn [app parse_tokens parse_step begin_value].
      rewrite Hstart, Hparse. reflexivity.
  - unfold element_text.
    match goal with H : Forall _ props |- _ =>
      rewrite (Serialize_Obj props H); rename H into Hprops end.
    destruct props as [|kx props].
    { exists [TLBrace; TRBrace]. repeat split; reflexivity. }
    destruct (members_read_back (kx :: props)) as (ts & Hlex & Hparse & Hstart);
      [|discriminate|].
    { rewrite Forall_forall in IH, Hprops |- *. intros y Hy.
      apply IH; [exact Hy|]. exact (proj2 (Hprops y Hy)). }
    exists (TLBrace :: ts). repeat split.
    + rewrite (lex_punctuator "{" 123%N TLBrace) by reflexivity.
      rewrite Hlex. reflexivity.
    + intros stack more. cbn [app parse_tokens parse_step begin_value].
      rewrite Hstart, (Hparse []); [reflexivity|]. assumption.
Qed.

Lemma JSON_stringify_plain v :
  plain v -> JSON_stringify v = Str (element_text v).
Proof.
  intros H. apply plain_serializes in H.
  unfold JSON_stringify, element_text.
  destruct (SerializeJSONProperty v); congruence.
Qed.

(** The text of a plain value parses as that value. *)
Lemma plain_text_parses v : plain v -> parse_text (element_text v) = Ok v.
Proof.
  intros H. destruct (plain_reads_back v H) as (ts & Hlex & Hparse & _).
  unfold parse_text. rewrite Hlex.
  rewrite <- (app_nil_r ts), Hparse. reflexivity.
Qed.

(** X10. Serializing and parsing give the value back:
    [JSON.parse(JSON.stringify(v))] is [v] for every plain value, whatever
    characters its strings and property names contain. This is what lets the
    donor info travel in the [custom_id] of the order. *)
Theorem JSON_round_trip v : plain v -> JSON_parse (JSON_stringify v) = Ok v.
Proof.
  intros H. rewrite (JSON_stringify_plain v H).
  unfold JSON_parse. cbn [ToString obind]. exact (plain_text_parses v H).
Qed.

End RoundTrip.

(** * More facts about the runtime *)

Section MoreFacts.
Context {E : Engine}.

(** The conversion to a string throws nothing but a TypeError. *)
Lemma ToString_raises v : forall e, ToString v = Raise e -> e = TypeError.
Proof.
  induction v as [| |b|n|s|items IH|props IH] using jsval_induction;
    intros e; cbn [ToString]; try discriminate.
  - destruct b; discriminate.
  - induction IH as [|x items Hx _ IHitems]; [discriminate|].
    destruct (is_nullish x).
    + cbn [obind]. destruct items as [|y items]; [discriminate|].
      match goal with |- context [obind ?j _] => destruct j as [r|e'] eqn:Hj end;
        cbn [obind]; [discriminate|].
      intros [= <-]. now apply IHitems.
    + destruct (ToString x) as [sx|ex] eqn:Htx; cbn [obind].
      * destruct items as [|y items]; [discriminate|].
        match goal with |- context [obind ?j _] => destruct j as [r|e'] eqn:Hj end;
          cbn [obind]; [discriminate|].
        intros [= <-]. now apply IHitems.
      * intros [= <-]. now apply Hx.
  - destruct (has_own_property props _); [|discriminate]. now intros [= <-].
Qed.

Lemma Get_raises v key e : Get v key = Raise e -> e = TypeError.
Proof.
  destruct v; cbn; try discriminate; try (now intros [= <-]).
  - destruct (str_eqb key _); [discriminate|].
    destruct (array_index key); [|discriminate].
    destruct (nth_item s n); discriminate.
  - destruct (str_eqb key _); [discriminate|].
    destruct (array_index key); [|discriminate].
    destruct (nth_item items n); discriminate.
  - destruct (own_property props key); discriminate.
Qed.

Lemma not_printable v : ~ printable v -> ToString v = Raise TypeError.
Proof.
  intros H. destruct (ToString v) as [s|e] eqn:Hv.
  - exfalso. apply H. now exists s.
  - now rewrite (ToString_raises v e Hv).
Qed.

Lemma between_later left right x rest value :
  between left right rest value -> between left right (x ++ rest) value.
Proof.
  intros (before & after & ->). exists (x ++ before), after.
  now rewrite <- app_assoc.
Qed.

Lemma between_here left right x y value :
  skipn (List.length x - List.length left) x = left ->
  firstn (List.length right) y = right ->
  between left right (x ++ value ++ y) value.
Proof.
  intros Hx Hy.
  exists (firstn (List.length x - List.length left) x),
         (skipn (List.length right) y).
  rewrite <- (firstn_skipn (List.length x - List.length left) x) at 1.
  rewrite <- (firstn_skipn (List.length right) y) at 1.
  rewrite Hx, Hy, <- !app_assoc. reflexivity.
Qed.

End MoreFacts.

(** * More about [generateThankYouMessage] *)

Section MoreGenerator.
Context {E : Engine} (w : world).

Lemma generateThankYouMessage_fetches name amount message :
  List.length
    (fetches (fst (Server.generateThankYouMessage w name amount message))) <= 1.
Proof.
  unfold Server.generateThankYouMessage. run.
  repeat step; trace_split; trace_compute; cbn [List.length]; lia.
Qed.

(** X1. [generateThankYouMessage] never retries: whatever its arguments and
    the replies of the service are, it issues at most one request, and it
    sends no mail and no HTTP response. *)
Theorem generateThankYouMessage_never_retries name amount message :
  let t := fst (Server.generateThankYouMessage w name amount message) in
  List.length (fetches t) <= 1 /\ mails t = [] /\ responses t = [].
Proof.
  cbv zeta. split; [apply generateThankYouMessage_fetches|].
  pose proof (generateThankYouMessage_harmless w name amount message) as H.
  apply harmless_trace in H as (Hm & Hr & _). now split.
Qed.

Lemma prompt_document_plain prompt : plain (prompt_document prompt).
Proof.
  unfold prompt_document.
  repeat constructor; intros [].
Qed.

(** X2. When the name and the amount can be interpolated, and the message
    too unless it is falsy, the function issues exactly one request: a POST
    to the fixed address followed by the key, declared as JSON, whose body
    is a JSON text that reads back as the document around the prompt,
    whatever characters the name, the amount and the message contain. The
    message is part of the prompt exactly when it is truthy. *)
Theorem generateThankYouMessage_request name amount message sn sa sm :
  ToString name = Ok sn -> ToString amount = Ok sa -> said message = Ok sm ->
  exists init,
    fetches (fst (Server.generateThankYouMessage w name amount message))
    = [(generative_endpoint ++ env_text (GEMINI_API_KEY w), init)]
    /\ method init = lit "POST"
    /\ headers init = [(lit "Content-Type", lit "application/json")]
    /\ JSON_parse (body init)
       = Ok (prompt_document (prompt_text sn sa sm)).
Proof.
  intros Hsn Hsa Hsaid.
  pose proof (ToString_env (GEMINI_API_KEY w)) as Hkey.
  exists {| method := lit "POST";
            headers := [(lit "Content-Type", lit "application/json")];
            body := JSON_stringify (prompt_document (prompt_text sn sa sm)) |}.
  split; [| split; [reflexivity | split; [reflexivity|]]].
  2:{ cbn [body].
      rewrite (JSON_stringify_plain _ (prompt_document_plain _)).
      apply plain_text_parses, prompt_document_plain. }
  unfold said in Hsaid.
  unfold Server.generateThankYouMessage. run. rewrite Hsn, Hsa. run.
  destruct (ToBoolean message) eqn:Htruthy.
  - destruct (ToString message) as [s|] eqn:Hmessage; [|discriminate].
    cbn [obind] in Hsaid. injection Hsaid as <-. run. rewrite Hkey. run.
    match goal with |- context [Fetch ?u _] =>
      replace u with (generative_endpoint ++ env_text (GEMINI_API_KEY w))
        by (now rewrite app_nil_r)
    end.
    match goal with
    |- context [Obj [(_, Arr [Obj [(_, Arr [Obj [(_, Str ?p)]])]])]] =>
      replace p with (prompt_text sn sa (Some s))
        by (unfold prompt_text; rewrite <- !app_assoc, ?app_nil_r;
            reflexivity)
    end.
    repeat step; reflexivity.
  - injection Hsaid as <-. run. rewrite Hkey. run.
    match goal with |- context [Fetch ?u _] =>
      replace u with (generative_endpoint ++ env_text (GEMINI_API_KEY w))
        by (now rewrite app_nil_r)
    end.
    match goal with
    |- context [Obj [(_, Arr [Obj [(_, Arr [Obj [(_, Str ?p)]])]])]] =>
      replace p with (prompt_text sn sa None)
        by (unfold prompt_text; rewrite <- !app_assoc, ?app_nil_r;
            reflexivity)
    end.
    repeat step; reflexivity.
Qed.

(** X3. When the name or the amount cannot be interpolated, the function
    issues no request; its catch block logs the TypeError and then throws it
    again, on the same interpolation in the fallback message: the promise is
    rejected. *)
Theorem generateThankYouMessage_unprintable name amount message :
  ~ printable name \/ ~ printable amount ->
  Server.generateThankYouMessage w name amount message
  = ([ConsoleError (lit "Error generating AI message:") (Some TypeError)],
     Raise TypeError).
Proof.
  intros H. unfold Server.generateThankYouMessage. run.
  destruct H as [H | H]; apply not_printable in H.
  - rewrite H. run.
    destruct (ToString amount) as [sa|e] eqn:Ha; run; [reflexivity|].
    now rewrite (ToString_raises amount e Ha).
  - rewrite H. destruct (ToString name) as [sn|e] eqn:Hn; run; [reflexivity|].
    now rewrite (ToString_raises name e Hn).
Qed.

(** X16. A message that is truthy but cannot be interpolated costs the
    donor the generated text, not the acknowledgement: the function issues
    no request, logs the TypeError and returns the fallback message. *)
Theorem unprintable_message_falls_back name amount message sn sa :
  ToString name = Ok sn -> ToString amount = Ok sa ->
  ToBoolean message = true -> ~ printable message ->
  Server.generateThankYouMessage w name amount message
  = ([ConsoleError (lit "Error generating AI message:") (Some TypeError)],
     Ok (Str (fallback_message sa sn))).
Proof.
  intros Hsn Hsa Htruthy Hmessage. apply not_printable in Hmessage.
  unfold Server.generateThankYouMessage. run. rewrite Hsn, Hsa. run.
  rewrite Htruthy. run. rewrite Hmessage. run.
  now rewrite fallback_message_chunks.
Qed.



End MoreGenerator.

(** * More about the webhook handler *)

Section MoreHandler.
Context {E : Engine} (w : world).

(** What is known of the effects of a call of the generator. *)
Ltac generator_facts :=
  lazymatch goal with
  | Hg : Server.generateThankYouMessage ?w ?n ?a ?m = (?tg, _) |- _ =>
      let Hq := fresh "Hquiet" in
      let Hf := fresh "Hfetch" in
      pose proof (generateThankYouMessage_harmless w n a m) as Hq;
      apply harmless_trace in Hq as (Hmails & Hresponses & _);
      pose proof (generateThankYouMessage_fetches w n a m) as Hf;
      rewrite Hg in Hmails, Hresponses, Hf; cbn [fst] in Hmails, Hresponses, Hf
  | _ => idtac
  end.

Ltac trace_facts :=
  trace_split;
  repeat match goal with
         | H : mails ?t = [] |- context [mails ?t] => rewrite H
         | H : responses ?t = [] |- context [responses ?t] => rewrite H
         end;
  trace_compute.

Ltac replay_reads :=
  repeat match goal with
         | H : ?c = Ok _ |- context [obind ?c _] => rewrite H; cbn [obind]
         end.

Lemma webhook_handler_paths (event : jsval) :
  recognized event ->
  let p := Server.webhook_handler w event in
  snd p = Ok tt
  /\ List.length (mails (fst p)) <= 1
  /\ List.length (fetches (fst p)) <= 1
  /\ ((responses (fst p) = [200%N]
       /\ exists m, mails (fst p) = [m] /\ sendMail_reply w m = Ok tt)
      \/ (responses (fst p) = [500%N]
          /\ forall m, In m (mails (fst p)) ->
                       exists e, sendMail_reply w m = Raise e))
  /\ (fetches (fst p) <> [] \/ mails (fst p) <> [] ->
      exists d, ingest event = Ok d /\ printable (amount_value d)
                /\ printable (donor_name d) /\ printable (donor_email d))
  /\ exists c, hd_error (rev (fst p)) = Some (SendStatus c).
Proof.
  intros Hrecognized.
  pose proof (ToString_env (EMAIL_FROM w)) as Hfrom.
  cbv zeta. pattern (Server.webhook_handler w event).
  match goal with |- ?P _ => set (Q := P) end.
  unfold Server.webhook_handler.
  repeat match goal with
         | |- context [txt (lit ?s)] => generalize (lit s); intro
         end.
  rewrite Hrecognized. run. rewrite recognized_tag. run.
  repeat step.
  all: subst Q; cbv beta; cbn [fst snd].
  all: generator_facts.
  all: split; [reflexivity|].
  all: split; [trace_facts; cbn [List.length]; lia|].
  all: split;
    [ trace_split; trace_compute; rewrite ?length_app; cbn [List.length]; lia |].
  all: split;
    [ first
        [ left; split; [trace_facts; reflexivity|];
          eexists; split; [trace_facts; reflexivity|];
          match goal with H : sendMail_reply _ _ = Ok ?u |- _ =>
            destruct u; exact H end
        | right; split; [trace_facts; reflexivity|];
          trace_facts; intros m' Hin; cbn [In] in Hin;
          first [ contradiction
                | destruct Hin as [<- | []]; eexists; eassumption ] ] |].
  all: split;
    [ first
        [ intros [Hn | Hn]; exfalso; apply Hn; trace_facts; reflexivity
        | intros _; unfold ingest; replay_reads;
          eexists; split; [reflexivity|];
          cbn [amount_value donor_name donor_email];
          repeat split; eexists; eassumption ] |].
  all: eexists; repeat (cbn [rev app hd_error]; rewrite ?rev_app_distr);
    reflexivity.
Qed.

Lemma last_effect (t : list effect) (e : effect) :
  hd_error (rev t) = Some e -> exists t', t = t' ++ [e].
Proof.
  intros H. destruct (rev t) as [|e' l] eqn:Hrev; [discriminate|].
  injection H as ->. exists (rev l).
  rewrite <- (rev_involutive t), Hrev. reflexivity.
Qed.

Lemma webhook_handler_unrecognized (event event_type : jsval) :
  Get event (lit "event_type") = Ok event_type ->
  strict_equals_string event_type (lit "PAYMENT.CAPTURE.COMPLETED") = false ->
  Server.webhook_handler w event = ([SendStatus 200], Ok tt).
Proof.
  intros Htype Htag. unfold Server.webhook_handler. rewrite Htype. run.
  now rewrite Htag.
Qed.

(** The two kinds of event that have a type. *)
Lemma event_kinds (event event_type : jsval) :
  Get event (lit "event_type") = Ok event_type ->
  recognized event
  \/ Server.webhook_handler w event = ([SendStatus 200], Ok tt).
Proof.
  intros Htype.
  destruct (strict_equals_string event_type (lit "PAYMENT.CAPTURE.COMPLETED"))
    eqn:Htag.
  - left. apply strict_equals_string_true in Htag. now subst.
  - right. now apply (webhook_handler_unrecognized event event_type).
Qed.

(** A name or an amount that cannot be interpolated does not reach
    [generateThankYouMessage]: the console line of line 142 throws first,
    inside the try block of the handler, so that the function is not called.
    The whole run of the handler is the first console line, the console
    message of the catch block and the response 500. *)
Lemma unprintable_is_not_passed_on (event : jsval) (d : donation) :
  recognized event -> ingest event = Ok d ->
  ~ printable (donor_name d) \/ ~ printable (amount_value d) ->
  Server.webhook_handler w event
  = ([ConsoleLog (9989%N :: lit " Received successful payment webhook.");
      ConsoleError (lit "Error processing webhook:") (Some TypeError);
      SendStatus 500],
     Ok tt).
Proof.
  intros Hrecognized Hingest Hnot.
  unfold ingest in Hingest.
  apply obind_Ok in Hingest as (resource & Hresource & Hingest).
  apply obind_Ok in Hingest as (amount & Hvalue & Hingest).
  apply obind_Ok in Hvalue as (amount_object & Hamount_object & Hvalue).
  apply obind_Ok in Hingest as (purchase_unit & Hunit & Hingest).
  apply obind_Ok in Hunit as (purchase_units & Hunits & Hunit).
  apply obind_Ok in Hingest as (donorInfo & Hdonor & Hingest).
  apply obind_Ok in Hdonor as (custom_id & Hcustom & Hdonor).
  apply obind_Ok in Hingest as (name & Hn & Hingest).
  apply obind_Ok in Hingest as (email & He & Hingest).
  apply obind_Ok in Hingest as (message & Hm & Hingest).
  injection Hingest as <-.
  cbn [amount_value donor_name] in Hnot.
  unfold Server.webhook_handler.
  repeat match goal with
         | |- context [txt (lit ?s)] => generalize (lit s); intro
         end.
  rewrite Hrecognized. run. rewrite recognized_tag. run.
  destruct Hnot as [Hnot | Hnot]; apply not_printable in Hnot.
  - destruct (ToString amount) as [sa|e] eqn:Hsa; repeat step;
      [reflexivity | now rewrite (ToString_raises amount e Hsa)].
  - repeat step. reflexivity.
Qed.

(** X5. The handler never fails outward on a request that has a body:
    whatever the event, the generative-text service and the mail transport
    do, the promise of the handler is fulfilled; every error raised while a
    recognized event is processed ends in the catch block. *)
Theorem webhook_handler_never_rejects (event : jsval) :
  is_nullish event = false ->
  snd (Server.webhook_handler w event) = Ok tt.
Proof.
  intros Hbody.
  destruct (Get_defined event (lit "event_type") Hbody) as [event_type Htype].
  destruct (event_kinds event event_type Htype) as [Hrecognized | ->];
    [|reflexivity].
  exact (proj1 (webhook_handler_paths event Hrecognized)).
Qed.

(** X6. The response tells PayPal whether the mail went out: on a recognized
    event the handler answers 200 only after it handed exactly one mail to
    the transport and the transport accepted it, and it answers 500
    otherwise, in which case no mail was accepted. *)
Theorem acknowledged_after_accepted_mail (event : jsval) :
  recognized event ->
  let t := fst (Server.webhook_handler w event) in
  (responses t = [200%N]
   /\ exists m, mails t = [m] /\ sendMail_reply w m = Ok tt)
  \/ (responses t = [500%N]
      /\ forall m, In m (mails t) -> exists e, sendMail_reply w m = Raise e).
Proof.
  intros Hrecognized.
  exact (proj1 (proj2 (proj2 (proj2 (webhook_handler_paths event Hrecognized))))).
Qed.

(** X7. One event gives at most one mail and at most one request to the
    generative-text service, whatever the event and the replies of the two
    services are: nothing is sent twice and nothing is retried. *)
Theorem at_most_one_mail_and_request (event : jsval) :
  let t := fst (Server.webhook_handler w event) in
  List.length (mails t) <= 1 /\ List.length (fetches t) <= 1.
Proof.
  cbv zeta.
  destruct (Get event (lit "event_type")) as [event_type|e] eqn:Htype.
  - destruct (event_kinds event event_type Htype) as [Hrecognized | ->].
    + destruct (webhook_handler_paths event Hrecognized) as (_ & Hm & Hf & _).
      now split.
    + cbn. lia.
  - unfold Server.webhook_handler. rewrite Htype. cbn. lia.
Qed.

(** X8. The generator is only called for a donation that the handler can
    print: when the amount, the name or the email of a recognized event
    cannot be interpolated, the handler answers 500 without a request to the
    generative-text service and without a mail. *)
Theorem unprintable_donation_fails (event : jsval) (d : donation) :
  recognized event -> ingest event = Ok d ->
  ~ (printable (amount_value d) /\ printable (donor_name d)
     /\ printable (donor_email d)) ->
  let t := fst (Server.webhook_handler w event) in
  responses t = [500%N] /\ mails t = [] /\ fetches t = [].
Proof.
  intros Hrecognized Hingest Hnot. cbv zeta.
  destruct (webhook_handler_paths event Hrecognized)
    as (_ & _ & _ & Hanswer & Hcalled & _).
  cbv zeta in Hanswer, Hcalled.
  assert (Hmails : mails (fst (Server.webhook_handler w event)) = []).
  { destruct (mails (fst (Server.webhook_handler w event))); [reflexivity|].
    exfalso. destruct Hcalled as (d' & Hd' & Hp); [right; discriminate|].
    rewrite Hingest in Hd'. injection Hd' as <-. exact (Hnot Hp). }
  assert (Hfetches : fetches (fst (Server.webhook_handler w event)) = []).
  { destruct (fetches (fst (Server.webhook_handler w event))); [reflexivity|].
    exfalso. destruct Hcalled as (d' & Hd' & Hp); [left; discriminate|].
    rewrite Hingest in Hd'. injection Hd' as <-. exact (Hnot Hp). }
  repeat split; try assumption.
  destruct Hanswer as [(_ & m & Hm & _) | (H500 & _)]; [|exact H500].
  rewrite Hmails in Hm. discriminate.
Qed.

(** X17. The handler answers last: whatever happens, the HTTP response is
    the last effect of a request that has a body. PayPal is answered only
    once the generative-text service and the mail transport have replied,
    and nothing is done after the response. *)
Theorem response_is_last_effect (event : jsval) :
  is_nullish event = false ->
  exists t c, fst (Server.webhook_handler w event) = t ++ [SendStatus c].
Proof.
  intros Hbody.
  destruct (Get_defined event (lit "event_type") Hbody) as [event_type Htype].
  destruct (event_kinds event event_type Htype) as [Hrecognized | ->].
  - destruct (webhook_handler_paths event Hrecognized)
      as (_ & _ & _ & _ & _ & c & Hlast).
    apply last_effect in Hlast as [t Ht]. now exists t, c.
  - now exists [], 200%N.
Qed.

(** X9. What the mail of a donation carries: the sender is the fixed display
    name around the configured address, which reads [undefined] when the
    variable is unset; the recipient is the email of the donor intent; the
    subject is fixed; and the name, the amount and the transaction id stand
    in the HTML exactly as they are, without any escaping. *)
Theorem mail_is_rendered_verbatim (event : jsval) (d : donation)
    (sa sn : jsstring) (id : jsval) (sid : jsstring) :
  recognized event -> ingest event = Ok d ->
  ToString (amount_value d) = Ok sa -> ToString (donor_name d) = Ok sn ->
  printable (donor_email d) ->
  Get (capture d) (lit "id") = Ok id -> ToString id = Ok sid ->
  exists m,
    mails (fst (Server.webhook_handler w event)) = [m]
    /\ mail_from m
       = lit "`HopeSpring Foundation` <" ++ env_text (EMAIL_FROM w) ++ lit ">"
    /\ mail_to m = donor_email d
    /\ mail_subject m
       = lit "Your incredible support for the HopeSpring Foundation!"
    /\ between (lit "<p>Dear ") (lit ",</p>") (mail_html m) sn
    /\ between (lit "<p><strong>Amount:</strong> $") (lit "</p>")
         (mail_html m) sa
    /\ between (lit "<p><strong>Transaction ID:</strong> ") (lit "</p>")
         (mail_html m) sid.
Proof.
  intros Hrecognized Hingest Hsa Hsn [se Hse] Hid Hsi.
  unfold ingest in Hingest.
  apply obind_Ok in Hingest as (resource & Hresource & Hingest).
  apply obind_Ok in Hingest as (amount & Hvalue & Hingest).
  apply obind_Ok in Hvalue as (amount_object & Hamount_object & Hvalue).
  apply obind_Ok in Hingest as (purchase_unit & Hunit & Hingest).
  apply obind_Ok in Hunit as (purchase_units & Hunits & Hunit).
  apply obind_Ok in Hingest as (donorInfo & Hdonor & Hingest).
  apply obind_Ok in Hdonor as (custom_id & Hcustom & Hdonor).
  apply obind_Ok in Hingest as (name & Hn & Hingest).
  apply obind_Ok in Hingest as (email & He & Hingest).
  apply obind_Ok in Hingest as (message & Hm & Hingest).
  injection Hingest as <-.
  cbn [capture amount_value donor_name donor_email donor_message] in *.
  destruct (generateThankYouMessage_returns_string w name amount message)
    as [acknowledgement Hack]; [now exists sn | now exists sa |].
  pose proof (generateThankYouMessage_harmless w name amount message) as Hquiet.
  apply harmless_trace in Hquiet as (Hmails & _ & _).
  destruct (Server.generateThankYouMessage w name amount message)
    as [tg og] eqn:Hg.
  cbn [fst snd] in Hack, Hmails. subst og.
  pose proof (ToString_env (EMAIL_FROM w)) as Hfrom.
  pattern (Server.webhook_handler w event).
  match goal with |- ?P _ => set (Q := P) end.
  unfold Server.webhook_handler. rewrite Hrecognized. run.
  rewrite recognized_tag. run.
  repeat step.
  all: subst Q; cbv beta; cbn [fst].
  all: eexists.
  all: split; [trace_split; rewrite Hmails; trace_compute; reflexivity|].
  all: cbn [mail_from mail_to mail_subject mail_html].
  all: split; [now rewrite app_nil_r|].
  all: split; [reflexivity|].
  all: split; [reflexivity|].
  all: repeat split;
    repeat first [ apply between_here; vm_compute; reflexivity
                 | apply between_later ].
Qed.

End MoreHandler.

(** * The key of the generative-text service *)

Section Key.
Context {E : Engine} (w w' : world).
Hypothesis same_sender : EMAIL_FROM w' = EMAIL_FROM w.
Hypothesis same_transport : forall m, sendMail_reply w' m = sendMail_reply w m.
Hypothesis same_service :
  forall init,
    alike (fetch_reply w' (generative_endpoint ++ env_text (GEMINI_API_KEY w'))
             init)
          (fetch_reply w (generative_endpoint ++ env_text (GEMINI_API_KEY w))
             init).

(** The replies to the two requests, side by side. *)
Ltac pair_replies :=
  lazymatch goal with
  | |- context [fetch_reply w' ?u ?i] =>
      lazymatch goal with
      | |- context [fetch_reply w ?v i] =>
          let Ha := fresh "Ha" in
          pose proof (same_service i) as Ha;
          change (alike (fetch_reply w' u i) (fetch_reply w v i)) in Ha;
          destruct (fetch_reply w' u i) as [[ok' st' jb']|e'];
          destruct (fetch_reply w v i) as [[ok0 st0 jb0]|e0];
          cbn [alike ok status json_body] in Ha; try contradiction;
          [ destruct Ha as (-> & -> & Ha);
            destruct jb' as [x'|ex'], jb0 as [x0|ex0];
            cbn [alike_body] in Ha; try contradiction; try subst x'
          | ];
          run; cbn [ok status json_body]
      end
  end.

Lemma generateThankYouMessage_key name amount message :
  map redact (fst (Server.generateThankYouMessage w' name amount message))
  = map redact (fst (Server.generateThankYouMessage w name amount message))
  /\ snd (Server.generateThankYouMessage w' name amount message)
     = snd (Server.generateThankYouMessage w name amount message).
Proof.
  unfold Server.generateThankYouMessage. run.
  rewrite !ToString_env.
  fold (env_text (GEMINI_API_KEY w')) (env_text (GEMINI_API_KEY w)).
  run. rewrite !app_nil_r. fold generative_endpoint.
  repeat first [ pair_replies | step; cbn [ok status json_body] ].
  all: split; reflexivity.
Qed.

(** X18. The key of the generative-text service reaches the address of the
    request and, through it, the error of the client that line 60 prints,
    and nothing else: for two keys and a service that answers both alike, up
    to the reasons of its rejections, the handler has the same outcome and
    the same effects (console lines, body of the request, mail, response) up
    to that address and that error. *)
Theorem api_key_in_address_and_error (event : jsval) :
  map redact (fst (Server.webhook_handler w' event))
  = map redact (fst (Server.webhook_handler w event))
  /\ snd (Server.webhook_handler w' event)
     = snd (Server.webhook_handler w event).
Proof.
  unfold Server.webhook_handler.
  repeat match goal with
         | |- context [txt (lit ?s)] => generalize (lit s); intro
         end.
  rewrite same_sender. run.
  repeat first
    [ lazymatch goal with
      | |- context [Server.generateThankYouMessage w' ?n ?a ?m] =>
          destruct (generateThankYouMessage_key n a m) as [Ht Ho];
          destruct (Server.generateThankYouMessage w n a m)
            as [tg og] eqn:Hg;
          destruct (Server.generateThankYouMessage w' n a m) as [tg' og'];
          cbn [fst snd] in Ht, Ho; subst og'; run
      end
    | lazymatch goal with
      | |- context [sendMail_reply w' ?m] => rewrite (same_transport m)
      end
    | step ].
  all: split; [|reflexivity].
  all: cbn [map]; rewrite ?map_app, ?Ht; reflexivity.
Qed.

End Key.

(** The witness of X18: two keys, a service that is unreachable and a client
    that quotes the address of the request. *)
Lemma api_key_in_address_and_error_witness :
  map redact (fst (Server.webhook_handler (KeyScenario.quoting "key-2")
                     Scenario.ada))
  = map redact (fst (Server.webhook_handler (KeyScenario.quoting "key-1")
                       Scenario.ada))
  /\ snd (Server.webhook_handler (KeyScenario.quoting "key-2") Scenario.ada)
     = snd (Server.webhook_handler (KeyScenario.quoting "key-1") Scenario.ada).
Proof.
  apply (api_key_in_address_and_error (KeyScenario.quoting "key-1")
           (KeyScenario.quoting "key-2")).
  - reflexivity.
  - reflexivity.
  - intros init. exact I.
Defined.

(** On that run the key is on the console: the error that line 60 prints
    quotes the address of the request. *)
Example key_reaches_console :
  In (ConsoleError (lit "Error generating AI message:")
        (Some (Rejection
                 (lit "request to " ++ generative_endpoint ++ lit "key-1"
                  ++ lit " failed, reason: connect ECONNREFUSED"))))
     (fst (Server.webhook_handler (KeyScenario.quoting "key-1") Scenario.ada)).
Proof. vm_compute. tauto. Qed.

(** * The order endpoints *)

Ltac order_run :=
  cbn [Api.bind Api.eval Api.await Api.try_catch Api.async_function
       Api.execute Api.json Api.status_json Api.console_error Api.emit
       Api.call_toFixed Api.executed Api.json_responses flat_map
       fst snd app obind].

Section Orders.
Context {E : Engine} (toFixed : number -> N -> jsstring) (w : Api.world).

Lemma Get_not_nullish v key x : Get v key = Ok x -> is_nullish v = false.
Proof. destruct v; cbn; try discriminate; reflexivity. Qed.

(** X11. The amount of an order must be a number: when the body of the
    request has none (the body is absent, the amount is missing, or it is a
    string, as a form field would be), the handler throws a TypeError on
    [toFixed], outside its try block: the promise is rejected, PayPal is not
    called and no response is sent. *)
Theorem create_order_requires_number (body : jsval) :
  (forall n, Get body (lit "amount") <> Ok (Num n)) ->
  Api.create_order toFixed w body = ([], Raise TypeError).
Proof.
  intros Hamount. unfold Api.create_order.
  destruct (Get body (lit "amount")) as [amount|e] eqn:Ha.
  - destruct (Get_defined body (lit "donorInfo") (Get_not_nullish _ _ _ Ha))
      as [donorInfo ->].
    destruct amount; try reflexivity.
    exfalso. exact (Hamount n eq_refl).
  - now rewrite (Get_raises body _ e Ha).
Qed.

(** X12. With a number for amount, the handler asks PayPal for exactly one
    order: intent CAPTURE, in USD, the amount in fixed notation with two
    decimals, and the donor info of the request, serialized by
    [JSON.stringify], as the [custom_id] of the first purchase unit. That is
    [undefined] when the request has no donor info. *)
Theorem create_order_request (body : jsval) (n : number) (donorInfo : jsval) :
  Get body (lit "amount") = Ok (Num n) ->
  Get body (lit "donorInfo") = Ok donorInfo ->
  exists requestBody,
    Api.executed (fst (Api.create_order toFixed w body))
    = [Api.OrdersCreateRequest (lit "return=representation") requestBody]
    /\ Api.Get_path requestBody [lit "intent"] = Ok (Str (lit "CAPTURE"))
    /\ Api.Get_path requestBody
         [lit "purchase_units"; lit "0"; lit "amount"; lit "currency_code"]
       = Ok (Str (lit "USD"))
    /\ Api.Get_path requestBody
         [lit "purchase_units"; lit "0"; lit "amount"; lit "value"]
       = Ok (Str (toFixed n 2%N))
    /\ Api.Get_path requestBody
         [lit "purchase_units"; lit "0"; lit "custom_id"]
       = Ok (JSON_stringify donorInfo).
Proof.
  intros Ha Hd. unfold Api.create_order. rewrite Ha, Hd.
  order_run. eexists. split.
  - destruct (Api.execute_reply w _) as [order|e]; order_run.
    + destruct (Get order (lit "result")) as [result|e]; order_run;
        [destruct (Get result (lit "id")); reflexivity | reflexivity].
    + reflexivity.
  - repeat split; reflexivity.
Qed.

(** X13. With a number for amount, the handler sends exactly one JSON
    response and its promise is fulfilled: the id of the order, with status
    200, when PayPal resolves with an order that has a result; status 500
    with a fixed error, which says nothing of the cause, when PayPal rejects
    or its reply has no result. *)
Theorem create_order_answers_once (body : jsval) (n : number) :
  Get body (lit "amount") = Ok (Num n) ->
  let p := Api.create_order toFixed w body in
  exists request,
    Api.executed (fst p) = [request]
    /\ Api.json_responses (fst p)
       = [Api.created (Api.execute_reply w request)]
    /\ snd p = Ok tt.
Proof.
  intros Ha. cbv zeta.
  destruct (Get_defined body (lit "donorInfo") (Get_not_nullish _ _ _ Ha))
    as [donorInfo Hd].
  unfold Api.create_order. rewrite Ha, Hd.
  order_run. eexists. unfold Api.created.
  destruct (Api.execute_reply w _) as [order|e] eqn:Hreply; order_run.
  - destruct (Get order (lit "result")) as [result|e] eqn:Hresult; order_run;
      [destruct (Get result (lit "id")) eqn:Hid; order_run |];
      (split; [reflexivity|]); rewrite Hreply; order_run;
      rewrite Hresult; order_run; rewrite ?Hid; split; reflexivity.
  - split; [reflexivity|]. rewrite Hreply. split; reflexivity.
Qed.

(** X14. When the request names an order and the SDK accepts the id, the
    capture handler asks PayPal for exactly one capture, of that order and
    with an empty body, and sends exactly one JSON response: the capture as
    PayPal returned it, with status 200, or status 500 with a fixed error
    when PayPal rejects. The promise is fulfilled in both cases. *)
Theorem capture_order_answers_once (body orderID : jsval) :
  Get body (lit "orderID") = Ok orderID ->
  Api.capture_request_reply w orderID = Ok tt ->
  let p := Api.capture_order w body in
  let request := Api.OrdersCaptureRequest orderID (Obj []) in
  Api.executed (fst p) = [request]
  /\ Api.json_responses (fst p) = [Api.captured (Api.execute_reply w request)]
  /\ snd p = Ok tt.
Proof.
  intros Hid Haccepted. cbv zeta. unfold Api.capture_order.
  rewrite Hid. order_run. rewrite Haccepted. order_run.
  unfold Api.captured.
  destruct (Api.execute_reply w _); order_run; repeat split; reflexivity.
Qed.

(** The [custom_id] of the order the handler creates. *)
Lemma create_order_stores (body : jsval) (n : number) (donorInfo : jsval)
    (request : Api.paypal_request) :
  Get body (lit "amount") = Ok (Num n) ->
  Get body (lit "donorInfo") = Ok donorInfo ->
  In request (Api.executed (fst (Api.create_order toFixed w body))) ->
  Api.custom_id_of request = Ok (JSON_stringify donorInfo).
Proof.
  intros Ha Hd. unfold Api.create_order. rewrite Ha, Hd. order_run.
  destruct (Api.execute_reply w _) as [order|e]; order_run;
    [destruct (Get order (lit "result")) as [result|e]; order_run;
       [destruct (Get result (lit "id")); order_run |] |].
  all: intros [<- | []]; reflexivity.
Qed.

(** What the handler of the webhook reads of an event, given the donor
    intent its [custom_id] parses to. *)
Lemma ingest_reads
    (event resource amount purchase_unit custom_id donorInfo : jsval) :
  Get event (lit "resource") = Ok resource ->
  Api.Get_path resource [lit "amount"; lit "value"] = Ok amount ->
  Api.Get_path resource [lit "purchase_units"; lit "0"] = Ok purchase_unit ->
  Get purchase_unit (lit "custom_id") = Ok custom_id ->
  JSON_parse custom_id = Ok donorInfo ->
  ingest event
  = (let! name := Get donorInfo (lit "name") in
     let! email := Get donorInfo (lit "email") in
     let! message := Get donorInfo (lit "message") in
     Ok {| capture := resource; amount_value := amount; donor_name := name;
           donor_email := email; donor_message := message |}).
Proof.
  intros Hresource Hamount Hunit Hcustom Hparse.
  cbn [Api.Get_path] in Hamount, Hunit.
  apply obind_Ok in Hamount as (amount_object & Hamount_object & Hamount).
  apply obind_Ok in Hamount as (amount' & Hvalue & [= <-]).
  apply obind_Ok in Hunit as (purchase_units & Hunits & Hunit).
  apply obind_Ok in Hunit as (unit' & Hfirst & [= <-]).
  unfold ingest. rewrite Hresource. cbn [obind].
  rewrite Hamount_object. cbn [obind]. rewrite Hvalue. cbn [obind].
  rewrite Hunits. cbn [obind]. rewrite Hfirst. cbn [obind].
  rewrite Hcustom. cbn [obind]. rewrite Hparse. reflexivity.
Qed.

(** X15. What the order endpoint stores is what the webhook reads: for a
    donor info that is a plain value, every event whose first purchase unit
    carries the [custom_id] of the order created for it is read by the
    handler of the webhook with the name, the email and the message of that
    donor info. *)
Theorem stored_donor_info_is_retrieved
    (body : jsval) (n : number) (donorInfo : jsval)
    (request : Api.paypal_request) (custom_id : jsval)
    (event resource amount purchase_unit : jsval) :
  Get body (lit "amount") = Ok (Num n) ->
  Get body (lit "donorInfo") = Ok donorInfo ->
  plain donorInfo ->
  In request (Api.executed (fst (Api.create_order toFixed w body))) ->
  Api.custom_id_of request = Ok custom_id ->
  Get event (lit "resource") = Ok resource ->
  Api.Get_path resource [lit "amount"; lit "value"] = Ok amount ->
  Api.Get_path resource [lit "purchase_units"; lit "0"] = Ok purchase_unit ->
  Get purchase_unit (lit "custom_id") = Ok custom_id ->
  ingest event
  = (let! name := Get donorInfo (lit "name") in
     let! email := Get donorInfo (lit "email") in
     let! message := Get donorInfo (lit "message") in
     Ok {| capture := resource; amount_value := amount; donor_name := name;
           donor_email := email; donor_message := message |}).
Proof.
  intros Ha Hd Hplain Hin Hstored Hresource Hamount Hunit Hcustom.
  rewrite (create_order_stores body n donorInfo request Ha Hd Hin) in Hstored.
  injection Hstored as <-.
  apply (ingest_reads event resource amount purchase_unit
           (JSON_stringify donorInfo));
    try assumption.
  rewrite (JSON_stringify_plain donorInfo Hplain).
  exact (plain_text_parses donorInfo Hplain).
Qed.

(** X19. From the order to the mail: when the page sends a plain donor info
    whose name and email are strings with a numeric amount, and PayPal then
    notifies the capture of the order created for it, with its [custom_id],
    an amount and an id that are strings, the handler of the webhook hands
    exactly one mail to the transport, addressed to the email the donor
    typed, and answers 200 or 500 as the transport accepts or rejects it. *)
Theorem donor_is_thanked (services : world)
    (body : jsval) (n : number) (donorInfo : jsval) (sn se : jsstring)
    (request : Api.paypal_request) (custom_id : jsval)
    (event resource purchase_unit : jsval) (sa sid : jsstring) :
  Get body (lit "amount") = Ok (Num n) ->
  Get body (lit "donorInfo") = Ok donorInfo ->
  plain donorInfo ->
  Get donorInfo (lit "name") = Ok (Str sn) ->
  Get donorInfo (lit "email") = Ok (Str se) ->
  In request (Api.executed (fst (Api.create_order toFixed w body))) ->
  Api.custom_id_of request = Ok custom_id ->
  recognized event ->
  Get event (lit "resource") = Ok resource ->
  Api.Get_path resource [lit "amount"; lit "value"] = Ok (Str sa) ->
  Api.Get_path resource [lit "purchase_units"; lit "0"] = Ok purchase_unit ->
  Get purchase_unit (lit "custom_id") = Ok custom_id ->
  Get resource (lit "id") = Ok (Str sid) ->
  let t := fst (Server.webhook_handler services event) in
  exists m,
    mails t = [m]
    /\ mail_to m = Str se
    /\ responses t = [match sendMail_reply services m with
                      | Ok _ => 200%N
                      | Raise _ => 500%N
                      end].
Proof.
  intros Ha Hd Hplain Hname Hemail Hin Hstored Hrecognized Hresource Hamount
    Hunit Hcustom Hid.
  rewrite (create_order_stores body n donorInfo request Ha Hd Hin) in Hstored.
  injection Hstored as <-.
  assert (Hparse : JSON_parse (JSON_stringify donorInfo) = Ok donorInfo).
  { rewrite (JSON_stringify_plain donorInfo Hplain).
    exact (plain_text_parses donorInfo Hplain). }
  pose proof (ingest_reads event resource (Str sa) purchase_unit
                (JSON_stringify donorInfo) donorInfo Hresource Hamount Hunit
                Hcustom Hparse) as Hingest.
  rewrite Hname, Hemail in Hingest. cbn [obind] in Hingest.
  destruct (Get_defined donorInfo (lit "message")
              (Get_not_nullish _ _ _ Hname)) as [message Hmessage].
  rewrite Hmessage in Hingest. cbn [obind] in Hingest.
  destruct (webhook_handler_fulfils services event _ Hrecognized Hingest)
    as (m & _ & Hmails & _ & Hto & _ & Hresponses & _).
  { apply (strings_renderable _ sa sn se sid); assumption || reflexivity. }
  exists m. cbn [donor_email] in Hto. auto.
Qed.

End Orders.

(** * The order and the mail of a donation, run *)

(** The witness of X2: Ada, 25.00 and a message. *)
Lemma generateThankYouMessage_request_witness :
  exists init,
    fetches (fst (Server.generateThankYouMessage Scenario.generator_down
                    (Str (lit "Ada")) (Str (lit "25.00"))
                    (Str (lit "Keep going!"))))
    = [(generative_endpoint ++ lit "key", init)]
    /\ method init = lit "POST"
    /\ headers init = [(lit "Content-Type", lit "application/json")]
    /\ JSON_parse (body init)
       = Ok (prompt_document
               (prompt_text (lit "Ada") (lit "25.00")
                  (Some (lit "Keep going!")))).
Proof.
  exact (generateThankYouMessage_request Scenario.generator_down
           (Str (lit "Ada")) (Str (lit "25.00")) (Str (lit "Keep going!"))
           (lit "Ada") (lit "25.00") (Some (lit "Keep going!"))
           eq_refl eq_refl eq_refl).
Defined.

Lemma unprintable_is_not_printable :
  ~ printable (E := IntegerEngine.engine) Scenario.unprintable.
Proof. intros [s Hs]. discriminate Hs. Qed.

(** The witness of X3: a name that is an object with a member named
    [toString]. *)
Lemma generateThankYouMessage_unprintable_witness :
  Server.generateThankYouMessage Scenario.generator_down Scenario.unprintable
    (Str (lit "25.00")) Undefined
  = ([ConsoleError (lit "Error generating AI message:") (Some TypeError)],
     Raise TypeError).
Proof.
  apply (generateThankYouMessage_unprintable Scenario.generator_down).
  left. exact unprintable_is_not_printable.
Defined.

(** The witness of X16: a message that is an object with a member named
    [toString]. *)
Lemma unprintable_message_falls_back_witness :
  Server.generateThankYouMessage Scenario.generator_down
    (Str (lit "Ada")) (Str (lit "25.00")) Scenario.unprintable
  = ([ConsoleError (lit "Error generating AI message:") (Some TypeError)],
     Ok (Str (fallback_message (lit "25.00") (lit "Ada")))).
Proof.
  apply (unprintable_message_falls_back Scenario.generator_down);
    try reflexivity.
  exact unprintable_is_not_printable.
Defined.


(** The witness of X5: Scenario C, metadata that is not JSON. *)
Lemma webhook_handler_never_rejects_witness :
  snd (Server.webhook_handler Scenario.transport_down Scenario.not_json)
  = Ok tt.
Proof.
  apply (webhook_handler_never_rejects Scenario.transport_down). reflexivity.
Defined.

(** The witness of X17: Scenario D, the transport rejects the mail. *)
Lemma response_is_last_effect_witness :
  exists t c,
    fst (Server.webhook_handler Scenario.transport_down Scenario.ada)
    = t ++ [SendStatus c].
Proof.
  apply (response_is_last_effect Scenario.transport_down). reflexivity.
Defined.

(** The witness of X6: Scenario D, the transport rejects the mail. *)
Lemma acknowledged_after_accepted_mail_witness :
  let t := fst (Server.webhook_handler Scenario.transport_down Scenario.ada) in
  (responses t = [200%N]
   /\ exists m, mails t = [m]
                /\ sendMail_reply Scenario.transport_down m = Ok tt)
  \/ (responses t = [500%N]
      /\ forall m, In m (mails t) ->
                   exists e, sendMail_reply Scenario.transport_down m = Raise e).
Proof.
  apply (acknowledged_after_accepted_mail Scenario.transport_down Scenario.ada).
  reflexivity.
Defined.

(** The witness of X8: a name that cannot be interpolated. *)
Lemma unprintable_donation_fails_witness :
  let t := fst (Server.webhook_handler
                  (Scenario.all_up "Thank you!") OrderScenario.adversarial) in
  responses t = [500%N] /\ mails t = [] /\ fetches t = [].
Proof.
  apply (unprintable_donation_fails (Scenario.all_up "Thank you!")
           OrderScenario.adversarial OrderScenario.adversarial_donation).
  - reflexivity.
  - reflexivity.
  - intros (_ & H & _). exact (unprintable_is_not_printable H).
Defined.

(** The witness of X9: Scenario A. *)
Lemma mail_is_rendered_verbatim_witness :
  exists m,
    mails (fst (Server.webhook_handler Scenario.generator_down Scenario.ada))
    = [m]
    /\ mail_from m
       = lit "`HopeSpring Foundation` <" ++ lit "thanks@hopespring.example"
         ++ lit ">"
    /\ mail_to m = Str (lit "ada@x.com")
    /\ mail_subject m
       = lit "Your incredible support for the HopeSpring Foundation!"
    /\ between (lit "<p>Dear ") (lit ",</p>") (mail_html m) (lit "Ada")
    /\ between (lit "<p><strong>Amount:</strong> $") (lit "</p>")
         (mail_html m) (lit "25.00")
    /\ between (lit "<p><strong>Transaction ID:</strong> ") (lit "</p>")
         (mail_html m) (lit "5O190127TN364715T").
Proof.
  apply (mail_is_rendered_verbatim Scenario.generator_down Scenario.ada
           Scenario.ada_donation (lit "25.00") (lit "Ada")
           (Str (lit "5O190127TN364715T")) (lit "5O190127TN364715T"));
    try reflexivity.
  apply printable_Str.
Defined.

Lemma sample_plain : plain OrderScenario.sample.
Proof.
  repeat first
    [ apply plain_Num; reflexivity
    | constructor
    | intros [H|H]; try discriminate H; revert H ];
    try (intros []).
Qed.

(** The witness of X10: a value with every kind of member, a string with
    quotes, a backslash, a control character, a surrogate pair and a lone
    surrogate. *)
Lemma JSON_round_trip_witness :
  JSON_parse (JSON_stringify OrderScenario.sample) = Ok OrderScenario.sample.
Proof. exact (JSON_round_trip OrderScenario.sample sample_plain). Defined.

(** The witness of X11: the amount as the text of a form field. *)
Lemma create_order_requires_number_witness :
  Api.create_order OrderScenario.toFixed OrderScenario.paypal_up
    OrderScenario.form_body
  = ([], Raise TypeError).
Proof.
  apply (create_order_requires_number OrderScenario.toFixed
           OrderScenario.paypal_up).
  intros n H. discriminate H.
Defined.

(** The witness of X12: an order of 25 from Ada. *)
Lemma create_order_request_witness :
  exists requestBody,
    Api.executed (fst (Api.create_order OrderScenario.toFixed
                         OrderScenario.paypal_up OrderScenario.order_body))
    = [Api.OrdersCreateRequest (lit "return=representation") requestBody]
    /\ Api.Get_path requestBody [lit "intent"] = Ok (Str (lit "CAPTURE"))
    /\ Api.Get_path requestBody
         [lit "purchase_units"; lit "0"; lit "amount"; lit "currency_code"]
       = Ok (Str (lit "USD"))
    /\ Api.Get_path requestBody
         [lit "purchase_units"; lit "0"; lit "amount"; lit "value"]
       = Ok (Str (lit "25.00"))
    /\ Api.Get_path requestBody
         [lit "purchase_units"; lit "0"; lit "custom_id"]
       = Ok (Str (lit "{`name`:`Ada`,`email`:`ada@x.com`,`message`:`Keep going!`}")).
Proof.
  exact (create_order_request OrderScenario.toFixed OrderScenario.paypal_up
           OrderScenario.order_body (Some 25%Z) OrderScenario.donor
           eq_refl eq_refl).
Defined.

(** The witness of X13: PayPal creates the order. *)
Lemma create_order_answers_once_witness :
  let p := Api.create_order OrderScenario.toFixed OrderScenario.paypal_up
             OrderScenario.order_body in
  exists request,
    Api.executed (fst p) = [request]
    /\ Api.json_responses (fst p)
       = [(200%N, Obj [(lit "orderID", Str (lit "5O190127TN364715T"))])]
    /\ snd p = Ok tt.
Proof.
  exact (create_order_answers_once OrderScenario.toFixed
           OrderScenario.paypal_up OrderScenario.order_body (Some 25%Z)
           eq_refl).
Defined.

(** The witness of X14: PayPal captures the order. *)
Lemma capture_order_answers_once_witness :
  let p := Api.capture_order OrderScenario.paypal_up
             OrderScenario.capture_body in
  let request :=
    Api.OrdersCaptureRequest (Str (lit "5O190127TN364715T")) (Obj []) in
  Api.executed (fst p) = [request]
  /\ Api.json_responses (fst p)
     = [Api.captured (Api.execute_reply OrderScenario.paypal_up request)]
  /\ snd p = Ok tt.
Proof.
  exact (capture_order_answers_once OrderScenario.paypal_up
           OrderScenario.capture_body (Str (lit "5O190127TN364715T"))
           eq_refl eq_refl).
Defined.

Lemma donor_plain : plain OrderScenario.donor.
Proof.
  repeat first
    [ constructor
    | intros [H|H]; try discriminate H; revert H ];
    try (intros []).
Qed.

(** The witness of X15: the order of Ada, then the event of its capture. *)
Lemma stored_donor_info_is_retrieved_witness :
  ingest OrderScenario.completed
  = Ok {| capture :=
            Obj [(lit "id", Str (lit "5O190127TN364715T"));
                 (lit "amount", Obj [(lit "currency_code", Str (lit "USD"));
                                     (lit "value", Str (lit "25.00"))]);
                 (lit "purchase_units",
                  Arr [Obj [(lit "custom_id",
                             JSON_stringify OrderScenario.donor)]])];
          amount_value := Str (lit "25.00");
          donor_name := Str (lit "Ada");
          donor_email := Str (lit "ada@x.com");
          donor_message := Str (lit "Keep going!") |}.
Proof.
  eapply (stored_donor_info_is_retrieved OrderScenario.toFixed
            OrderScenario.paypal_up OrderScenario.order_body (Some 25%Z)
            OrderScenario.donor).
  - reflexivity.
  - reflexivity.
  - exact donor_plain.
  - left. reflexivity.
  - reflexivity.
  - reflexivity.
  - reflexivity.
  - reflexivity.
  - reflexivity.
Defined.

(** The witness of X19: the order of Ada, the event of its capture, and a
    transport that accepts. *)
Lemma donor_is_thanked_witness :
  let t := fst (Server.webhook_handler Scenario.generator_down
                  OrderScenario.completed) in
  exists m,
    mails t = [m]
    /\ mail_to m = Str (lit "ada@x.com")
    /\ responses t = [match sendMail_reply Scenario.generator_down m with
                      | Ok _ => 200%N
                      | Raise _ => 500%N
                      end].
Proof.
  eapply (donor_is_thanked OrderScenario.toFixed OrderScenario.paypal_up
            Scenario.generator_down OrderScenario.order_body (Some 25%Z)
            OrderScenario.donor (lit "Ada") (lit "ada@x.com")).
  - reflexivity.
  - reflexivity.
  - exact donor_plain.
  - reflexivity.
  - reflexivity.
  - left. reflexivity.
  - reflexivity.
  - reflexivity.
  - reflexivity.
  - reflexivity.
  - reflexivity.
  - reflexivity.
  - reflexivity.
Defined.
